(** * CARES survival tables: row extraction and row filtering

    A shallow embedding of
    [src/data_scraping_script_cares_data_tables_survival.py]: the row
    extractor [extract_text_rows], the row filter [is_valid_data_row] and the
    page loop of the script, followed by the properties of these functions.

    Conventions of the embedding.
    - A Python [str] is a [string]; one [ascii] stands for one code point
      below 256.  [lower] and [strip] follow [str.lower] and [str.strip] on
      these code points.
    - A vertical offset (a float in the script) is a rational [Q]; the value
      [round(top, 1)] is represented by its number of tenths, an integer.
    - A word of [page.extract_words] is a record whose fields ['top'] and
      ['text'] may be absent.
    - An exception is a value of [exn]; the effects of the script (opening
      the PDF, writing a CSV file, printing) are recorded in a trace. *)

From Stdlib Require Import ZArith QArith Qround Qabs Lqa Ascii String List Lia Bool.
From stdpp Require Import base list sorting gmap strings pretty.

Local Open Scope string_scope.
Local Open Scope list_scope.
Local Open Scope Z_scope.

(** ** Python strings *)

Module PyStr.

Definition code (a : ascii) : N := N_of_ascii a.

(** Code points below 256 that [str.isspace] accepts: the ASCII white
    space 9-13, the separators 28-31, the space, NEL and the no-break
    space. *)
Definition isspace (a : ascii) : bool :=
  let n := code a in
  ((9 <=? n) && (n <=? 13) || (28 <=? n) && (n <=? 32)
   || (n =? 133) || (n =? 160))%N.

(** Code points below 256 that have a distinct lower-case form: A-Z and
    the Latin-1 capitals 192-222 except the multiplication sign 215. *)
Definition isupper (a : ascii) : bool :=
  let n := code a in
  ((65 <=? n) && (n <=? 90)
   || (192 <=? n) && (n <=? 222) && negb (n =? 215))%N.

Definition lower_char (a : ascii) : ascii :=
  if isupper a then ascii_of_N (code a + 32) else a.

(** [s.lower()] *)
Fixpoint lower (s : string) : string :=
  match s with
  | EmptyString => EmptyString
  | String a s' => String (lower_char a) (lower s')
  end.

Fixpoint lstrip (s : string) : string :=
  match s with
  | EmptyString => EmptyString
  | String a s' => if isspace a then lstrip s' else s
  end.

Fixpoint rstrip (s : string) : string :=
  match s with
  | EmptyString => EmptyString
  | String a s' =>
      match rstrip s' with
      | EmptyString => if isspace a then EmptyString else String a EmptyString
      | r => String a r
      end
  end.

(** [s.strip()] *)
Definition strip (s : string) : string := rstrip (lstrip s).

(** [s.startswith(p)] *)
Fixpoint startswith (s p : string) {struct p} : bool :=
  match p, s with
  | EmptyString, _ => true
  | String b p', String a s' => Ascii.eqb a b && startswith s' p'
  | String _ _, EmptyString => false
  end.

(** [k in s] *)
Fixpoint contains (k s : string) : bool :=
  startswith s k
  || match s with
     | EmptyString => false
     | String _ s' => contains k s'
     end.

(** [sep.join(l)] *)
Fixpoint join (sep : string) (l : list string) : string :=
  match l with
  | [] => EmptyString
  | [x] => x
  | x :: l' => x +:+ sep +:+ join sep l'
  end.

(** Truth value of a string: non-empty. *)
Definition truthy (s : string) : bool :=
  match s with EmptyString => false | String _ _ => true end.

End PyStr.

(** ** The row filter *)

(** A row of cells. *)
Abbreviation row := (list string).

Definition allow_keywords : list string :=
  [ "utstein"; "location of arrest"; "arrest witnessed"; "bystander cpr";
    "cpr"; "aed"; "hypothermia"; "neurological"; "category";
    "initial arrest rhythm"; "shockable" ].

Definition banned_fragments : list string :=
  [ "survival to"; "total n"; "rosc"; "cpc"; "admission"; "discharge";
    "sample ems"; "page"; "report"; "cares"; "data definitions" ].

Definition footnote_starts : list string :=
  [ "inclusion criteria"; "*bystander"; "april" ].

(** [" ".join(cell.lower().strip() for cell in row)] *)
Definition joined (r : row) : string :=
  PyStr.join " " (map (fun cell => PyStr.strip (PyStr.lower cell)) r).

(** [len([c for c in row if c.strip()])] *)
Definition non_empty_cells (r : row) : nat :=
  length (filter (fun c => PyStr.truthy (PyStr.strip c) = true) r).

Definition is_valid_data_row (r : row) : bool :=
  let j := joined r in
  if existsb (fun f => PyStr.startswith j f) footnote_starts then false
  else if existsb (fun k => PyStr.contains k j) banned_fragments then false
  else if existsb (fun k => PyStr.contains k j) allow_keywords then true
  else if (non_empty_cells r <=? 1)%nat then false
  else true.

(** ** Exceptions and effects *)

Inductive exn : Type :=
| ValueError (msg : string)
| IndexError
| KeyError
| OSError (msg : string).

Inductive result (A : Type) : Type :=
| Ok (a : A)
| Raise (e : exn).
Arguments Ok {A} a.
Arguments Raise {A} e.

Definition bindR {A B} (m : result A) (k : A -> result B) : result B :=
  match m with
  | Ok a => k a
  | Raise e => Raise e
  end.

Notation "'try' x <- m ; k" := (bindR m (fun x => k))
  (at level 10, x name, m at level 100, k at level 200).

Fixpoint mapR {A B} (f : A -> result B) (l : list A) : result (list B) :=
  match l with
  | [] => Ok []
  | x :: l' => try y <- f x; try ys <- mapR f l'; Ok (y :: ys)
  end.

(** ** Python lists *)

(** [l[i]] for an integer [i]: a negative index counts from the end of the
    list; an index outside of [-len(l) .. len(l) - 1] raises. *)
Definition getitem {A} (l : list A) (i : Z) : result A :=
  let i' := if i <? 0 then i + Z.of_nat (length l) else i in
  if i' <? 0 then Raise IndexError
  else match l !! Z.to_nat i' with
       | Some x => Ok x
       | None => Raise IndexError
       end.

(** [l * n]: the empty list when [n] is zero or negative. *)
Definition list_mul {A} (l : list A) (n : Z) : list A :=
  mjoin (replicate (Z.to_nat n) l).

(** ** The row extractor *)

(** A word as returned by [page.extract_words]: a dictionary of which the
    script reads the keys ['top'] and ['text'] only. *)
Record word : Type := Word { top : option Q; text : option string }.

(** The words that [page.extract_words(x_tolerance=2, y_tolerance=2,
    keep_blank_chars=True, use_text_flow=True)] returns for a page. *)
Record page : Type := Page { extract_words : list word }.

(** ['k' in word] and [word['k']] *)
Definition has {A} (field : option A) : bool :=
  match field with Some _ => true | None => false end.

Definition get {A} (field : option A) : result A :=
  match field with Some v => Ok v | None => Raise KeyError end.

(** [round(x, 1)] counted in tenths: the nearest multiple of one tenth, a
    tie going to the even one. *)
Definition round1 (x : Q) : Z :=
  let t := (x * inject_Z 10)%Q in
  let n := Qfloor t in
  match ((t - inject_Z n) ?= (1 # 2))%Q with
  | Lt => n
  | Gt => n + 1
  | Eq => if Z.even n then n else n + 1
  end.

(** [lines_by_y.setdefault(y, []).append(t)] *)
Definition setdefault_append (y : Z) (t : string)
    (d : gmap Z (list string)) : gmap Z (list string) :=
  <[ y := default [] (d !! y) ++ [t] ]> d.

(** The loop over [words], started from the dictionary [d]. *)
Fixpoint group_words (words : list word) (d : gmap Z (list string))
    : result (gmap Z (list string)) :=
  match words with
  | [] => Ok d
  | w :: words' =>
      if has (top w) && has (text w) then
        try y0 <- get (top w);
        let y := round1 y0 in
        try t <- get (text w);
        group_words words' (setdefault_append y t d)
      else group_words words' d
  end.

(** [d[y]] *)
Definition dict_getitem (d : gmap Z (list string)) (y : Z)
    : result (list string) :=
  match d !! y with
  | Some l => Ok l
  | None => Raise KeyError
  end.

(** [d.keys()]; the script sorts them, so their order is immaterial. *)
Definition keys (d : gmap Z (list string)) : list Z := (map_to_list d).*1.

(** [sorted(l)] on numbers *)
Definition sorted (l : list Z) : list Z := merge_sort Z.le l.

Definition extract_text_rows (p : page) : result (list row) :=
  let words := extract_words p in
  try lines_by_y <- group_words words ∅;
  mapR (fun y => dict_getitem lines_by_y y) (sorted (keys lines_by_y)).

(** ** The page loop *)

(** What [pd.DataFrame(data, columns=...)] holds: the column names and the
    rows, a cell being absent where a row was shorter than the longest. *)
Record DataFrame : Type :=
  Frame { columns : list string; frame_rows : list (list (option string)) }.

Definition max_len (data : list row) : nat :=
  foldr (fun r m => Nat.max (length r) m) 0%nat data.

Definition str_of_nat (n : nat) : string := pretty (Z.of_nat n).

(** [pd.DataFrame(data, columns=cols)] on a list of lists: short rows are
    filled up to the longest; a longest row whose length is not the number
    of columns raises. *)
Definition pd_DataFrame (data : list row) (cols : list string)
    : result DataFrame :=
  match data with
  | [] => Ok (Frame cols [])
  | _ =>
      let n := max_len data in
      if (n =? length cols)%nat then
        Ok (Frame cols
              (map (fun r => map Some r ++ replicate (n - length r) None) data))
      else
        Raise (ValueError (str_of_nat (length cols) +:+ " columns passed, "
                           +:+ "passed data had " +:+ str_of_nat n
                           +:+ " columns"))
  end.

Inductive event : Type :=
| Open (path : string)
| Close (path : string)
| ToCsv (name : string) (df : DataFrame)
| Print (msg : string).

(** A computation with effects: the trace of its events and its outcome. *)
Definition M (A : Type) : Type := list event * result A.

Definition ret {A} (a : A) : M A := ([], Ok a).
Definition lift {A} (r : result A) : M A := ([], r).
Definition emit (e : event) : M unit := ([e], Ok tt).

Definition bindM {A B} (m : M A) (k : A -> M B) : M B :=
  match m with
  | (t, Ok a) => let '(t', r) := k a in (t ++ t', r)
  | (t, Raise e) => (t, Raise e)
  end.

Notation "'do' x <- m ; k" := (bindM m (fun x => k))
  (at level 10, x name, m at level 100, k at level 200).
Notation "'run' m ; k" := (bindM m (fun _ => k))
  (at level 10, m at level 100, k at level 200).

(** The parsed command line: [--pdf], [--pages], one list per [--headers]. *)
Record args : Type :=
  Args { pdf : string; pages : list Z; headers : list (list string) }.

(** What the run finds outside of the program: the clock, already
    formatted by [strftime("%Y-%m-%d_%H-%M")], and what [pdfplumber.open]
    answers for a path ([pdf.pages], or the exception it raises). *)
Record world : Type :=
  World { now : string; pdfplumber_open : string -> result (list page) }.

(** [with pdfplumber.open(path) as pdf: body]: the document is closed when
    the body ends, also when it raises. *)
Definition with_open {A} (w : world) (path : string)
    (body : list page -> M A) : M A :=
  match pdfplumber_open w path with
  | Raise e => ([Open path], Raise e)
  | Ok pdf_pages =>
      let '(t, r) := body pdf_pages in (Open path :: t ++ [Close path], r)
  end.

(** [r + [""] * (max_cols - len(r))] *)
Definition pad (max_cols : nat) (r : row) : row :=
  r ++ list_mul [""] (Z.of_nat max_cols - Z.of_nat (length r)).

Definition normalized (hdrs : list string) (raw_rows : list row) : list row :=
  let max_cols := length hdrs in
  map (pad max_cols) raw_rows.

Definition filtered (hdrs : list string) (raw_rows : list row) : list row :=
  filter (fun r => is_valid_data_row r = true) (normalized hdrs raw_rows).

Definition output_name (timestamp : string) (page_num : Z) : string :=
  "page_" +:+ pretty (page_num + 1) +:+ "_cleaned_" +:+ timestamp +:+ ".csv".

(** The body of the loop over [enumerate(page_numbers)]. *)
Definition process_page (timestamp : string) (pdf_pages : list page)
    (all_headers : list (list string)) (idx : nat) (page_num : Z) : M unit :=
  do hdrs <- lift (getitem all_headers (Z.of_nat idx));
  do pg <- lift (getitem pdf_pages page_num);
  do raw_rows <- lift (extract_text_rows pg);
  do df <- lift (pd_DataFrame (filtered hdrs raw_rows) hdrs);
  let name := output_name timestamp page_num in
  run emit (ToCsv name df);
  emit (Print ("Saved: " +:+ name)).

Fixpoint page_loop (timestamp : string) (pdf_pages : list page)
    (all_headers : list (list string)) (idx : nat) (page_numbers : list Z)
    : M unit :=
  match page_numbers with
  | [] => ret tt
  | page_num :: rest =>
      run process_page timestamp pdf_pages all_headers idx page_num;
      page_loop timestamp pdf_pages all_headers (S idx) rest
  end.

Definition mismatch_message : string :=
  "Number of --headers sets must match number of --pages.".

(** The script, from the parsed arguments on. *)
Definition main (a : args) (w : world) : M unit :=
  let pdf_path := pdf a in
  let page_numbers := map (fun p => p - 1) (pages a) in
  let all_headers := headers a in
  if negb (length all_headers =? length page_numbers)%nat then
    lift (Raise (ValueError mismatch_message))
  else
    let timestamp := now w in
    with_open w pdf_path (fun pdf_pages =>
      page_loop timestamp pdf_pages all_headers 0 page_numbers).

(** The files a trace writes, in order. *)
Definition written (t : list event) : list (string * DataFrame) :=
  omap (fun e => match e with ToCsv n df => Some (n, df) | _ => None end) t.

(** ** Sample runs *)

Definition sample_page : page :=
  Page [ Word (Some (12004 # 100)%Q) (Some "Witnessed");
         Word (Some (50 # 1)%Q) (Some "CARES report");
         Word (Some (1201 # 10)%Q) (Some "Yes");
         Word None (Some "stray");
         Word (Some (3001 # 20)%Q) (Some "Utstein");
         Word (Some (1200 # 10)%Q) (Some "42%") ].

Definition sample_world : world :=
  World "2026-01-01_00-00" (fun _ => Ok [sample_page]).

Definition blank_page : page := Page [].

Definition furniture_page : page :=
  Page [ Word (Some (50 # 1)%Q) (Some "CARES report");
         Word (Some (700 # 1)%Q) (Some "Page 3") ].

(** ** Notions used to state the properties *)

(** [p] is a prefix of [s]; [k] occurs in [s]. *)
Definition is_prefix (p s : string) : Prop := exists post, s = p +:+ post.

Definition is_substring (k s : string) : Prop :=
  exists pre post, s = pre +:+ k +:+ post.

Definition starts_with_any (ps : list string) (s : string) : Prop :=
  exists p, In p ps /\ is_prefix p s.

Definition contains_any (ks : list string) (s : string) : Prop :=
  exists k, In k ks /\ is_substring k s.

(** Every character of [s] is white space. *)
Fixpoint all_space (s : string) : bool :=
  match s with
  | EmptyString => true
  | String a s' => PyStr.isspace a && all_space s'
  end.

(** [u] is a capital letter and [l] its lower-case form. *)
Definition case_pair (u l : ascii) : Prop :=
  PyStr.isupper u = true /\ PyStr.code l = (PyStr.code u + 32)%N.

(** Two characters that differ at most in letter case. *)
Definition same_letter (a b : ascii) : Prop :=
  a = b \/ case_pair a b \/ case_pair b a.

(** Two strings, and two rows, that differ at most in the letter case of
    their characters. *)
Fixpoint case_variant (s t : string) : Prop :=
  match s, t with
  | EmptyString, EmptyString => True
  | String a s', String b t' => same_letter a b /\ case_variant s' t'
  | _, _ => False
  end.

Definition row_case_variant (r1 r2 : row) : Prop := Forall2 case_variant r1 r2.

(** The sharp s, code point 223: a lower-case letter whose upper-case form
    is the two letters SS, and which [str.lower] leaves as it is. *)
Definition sharp_s : ascii := "223"%char.

(** The word admission written with a sharp s. *)
Definition admission_sharp_s : string := "admi" +:+ String sharp_s "ion".

(** Two strings that differ only in letter case, as [str.upper] relates
    them below code point 256: letter by letter, or a sharp s on one side
    against its upper-case form SS on the other. *)
Inductive differ_in_case : string -> string -> Prop :=
| differ_nil : differ_in_case EmptyString EmptyString
| differ_letter a b s t :
    same_letter a b -> differ_in_case s t ->
    differ_in_case (String a s) (String b t)
| differ_sharp_s_upper s t :
    differ_in_case s t ->
    differ_in_case (String sharp_s s) (String "S" (String "S" t))
| differ_upper_sharp_s s t :
    differ_in_case s t ->
    differ_in_case (String "S" (String "S" s)) (String sharp_s t).

(** Two cells that differ letter by letter in case only, or that have the
    same lower-cased form. *)
Definition same_lowered (c1 c2 : string) : Prop :=
  case_variant c1 c2 \/ PyStr.lower c1 = PyStr.lower c2.

(** A word that has both attributes. *)
Definition well_formed (w : word) : bool := has (top w) && has (text w).

(** The rounded offset of a word that has both attributes. *)
Definition key_of (w : word) : option Z :=
  match top w, text w with
  | Some y0, Some _ => Some (round1 y0)
  | _, _ => None
  end.

(** The texts, in reading order, of the words of [ws] that have both
    attributes and whose rounded offset is [y]. *)
Definition row_of_key (ws : list word) (y : Z) : list string :=
  omap (fun w =>
          match top w, text w with
          | Some y0, Some t => if decide (round1 y0 = y) then Some t else None
          | _, _ => None
          end) ws.

(** The last character of a string, and the strings that end in a
    character other than the space. *)
Fixpoint last_char (s : string) : option ascii :=
  match s with
  | EmptyString => None
  | String a EmptyString => Some a
  | String _ s' => last_char s'
  end.

Definition ends_nonspace (k : string) : bool :=
  match last_char k with
  | Some c => negb (Ascii.eqb c " ")
  | None => false
  end.

(** The texts of the words that have both attributes, in reading order. *)
Definition texts (ws : list word) : list string :=
  omap (fun w => match top w, text w with
                 | Some _, Some t => Some t
                 | _, _ => None
                 end) ws.

(** The texts of the words that have both attributes and whose rounded
    offset is one of [ks], in reading order. *)
Definition texts_in (ks : list Z) (ws : list word) : list string :=
  omap (fun w => match top w, text w with
                 | Some y0, Some t =>
                     if decide (round1 y0 ∈ ks) then Some t else None
                 | _, _ => None
                 end) ws.

(** The name of the file of the page of number [p] (one-based), and the
    two events of a file that is written: the file, then its message. *)
Definition page_file (timestamp : string) (p : Z) : string :=
  "page_" +:+ pretty p +:+ "_cleaned_" +:+ timestamp +:+ ".csv".

Definition announced (nd : string * DataFrame) : list event :=
  [ ToCsv (fst nd) (snd nd); Print ("Saved: " +:+ fst nd) ].

(** * Properties *)

(** ** Strings *)

Section StringFacts.

Import PyStr.

Lemma startswith_spec s p : startswith s p = true <-> is_prefix p s.
Proof.
  revert s. induction p as [|b p IH]; intros s; simpl.
  - split; [intros _; exists s; reflexivity | reflexivity].
  - destruct s as [|a s].
    + split; [discriminate | intros [post H]; discriminate H].
    + rewrite andb_true_iff, Ascii.eqb_eq, IH. split.
      * intros [-> [post ->]]. exists post. reflexivity.
      * intros [post H]. simpl in H. injection H as -> ->.
        split; [reflexivity | exists post; reflexivity].
Qed.

Lemma contains_spec k s : contains k s = true <-> is_substring k s.
Proof.
  induction s as [|a s IH].
  - simpl. rewrite orb_false_r, startswith_spec. split.
    + intros [post H]. exists "", post. exact H.
    + intros [pre [post H]]. destruct pre as [|c pre]; [|discriminate H].
      exists post. exact H.
  - cbn [contains]. rewrite orb_true_iff, startswith_spec, IH. split.
    + intros [[post H] | [pre [post H]]].
      * exists "", post. exact H.
      * exists (String a pre), post. simpl. rewrite H. reflexivity.
    + intros [pre [post H]]. destruct pre as [|c pre].
      * left. exists post. exact H.
      * right. simpl in H. injection H as _ ->. exists pre, post.
        reflexivity.
Qed.

Lemma starts_with_any_spec ps s :
  existsb (fun p => startswith s p) ps = true <-> starts_with_any ps s.
Proof.
  rewrite existsb_exists. unfold starts_with_any.
  split; intros [p [Hin H]]; exists p; (split; [exact Hin|]);
    apply startswith_spec; exact H.
Qed.

Lemma contains_any_spec ks s :
  existsb (fun k => contains k s) ks = true <-> contains_any ks s.
Proof.
  rewrite existsb_exists. unfold contains_any.
  split; intros [k [Hin H]]; exists k; (split; [exact Hin|]);
    apply contains_spec; exact H.
Qed.

End StringFacts.

(** ** The row filter: order of the checks *)

(** C5.  A row whose joined string starts with a footnote marker is
    rejected, whatever else the row holds. *)
Theorem footnote_start_rejected (r : row) :
  starts_with_any footnote_starts (joined r) -> is_valid_data_row r = false.
Proof.
  intros H. apply starts_with_any_spec in H.
  unfold is_valid_data_row. cbv zeta. rewrite H. reflexivity.
Qed.

Lemma footnote_start_rejected_example :
  is_valid_data_row ["Inclusion criteria: adult patients only"; ""] = false.
Proof.
  apply footnote_start_rejected.
  exists "inclusion criteria". split.
  - simpl. auto.
  - exists ": adult patients only ". vm_compute. reflexivity.
Defined.

(** C3.  A row whose joined string contains a banned fragment is rejected,
    also when it contains an allow keyword: the banned fragments are looked
    for first. *)
Theorem banned_fragment_rejected (r : row) :
  contains_any banned_fragments (joined r) -> is_valid_data_row r = false.
Proof.
  intros H. apply contains_any_spec in H.
  unfold is_valid_data_row. cbv zeta. rewrite H.
  destruct (existsb _ footnote_starts); reflexivity.
Qed.

Lemma banned_fragment_rejected_example :
  contains_any allow_keywords (joined ["survival to discharge"; "cpr"])
  /\ is_valid_data_row ["survival to discharge"; "cpr"] = false.
Proof.
  split.
  - exists "cpr". split; [simpl; auto 10|].
    exists "survival to discharge ", "". vm_compute. reflexivity.
  - apply banned_fragment_rejected.
    exists "survival to". split; [simpl; auto|].
    exists "", " discharge cpr". vm_compute. reflexivity.
Defined.

(** C4.  A row whose joined string contains an allow keyword, starts with
    no footnote marker and contains no banned fragment is accepted, however
    few of its cells are filled. *)
Theorem allow_keyword_accepted (r : row) :
  contains_any allow_keywords (joined r) ->
  ~ starts_with_any footnote_starts (joined r) ->
  ~ contains_any banned_fragments (joined r) ->
  is_valid_data_row r = true.
Proof.
  intros Ha Hf Hb.
  apply contains_any_spec in Ha.
  rewrite <- starts_with_any_spec in Hf. apply not_true_is_false in Hf.
  rewrite <- contains_any_spec in Hb. apply not_true_is_false in Hb.
  unfold is_valid_data_row. cbv zeta. rewrite Hf, Hb, Ha. reflexivity.
Qed.

Lemma allow_keyword_accepted_example :
  (non_empty_cells ["Utstein"; ""; ""] <= 1)%nat
  /\ is_valid_data_row ["Utstein"; ""; ""] = true.
Proof.
  split; [vm_compute; lia|].
  apply allow_keyword_accepted.
  - exists "utstein". split; [simpl; auto|].
    exists "", "  ". vm_compute. reflexivity.
  - intros H. apply starts_with_any_spec in H. vm_compute in H.
    discriminate H.
  - intros H. apply contains_any_spec in H. vm_compute in H.
    discriminate H.
Defined.

(** ** The row filter: letter case *)

Section CaseFacts.

Import PyStr.

Lemma case_pair_lower u l :
  case_pair u l -> lower_char u = l /\ lower_char l = l /\ isspace u = false
                   /\ isspace l = false.
Proof.
  intros [Hu Hl]. unfold code in Hl.
  assert (l = ascii_of_N (N_of_ascii u + 32)) as ->
    by (rewrite <- Hl; symmetry; apply ascii_N_embedding).
  clear Hl. revert Hu.
  destruct u as [[] [] [] [] [] [] [] []]; vm_compute; intros Hu;
    try discriminate Hu; repeat split.
Qed.

Lemma same_letter_lower a b : same_letter a b -> lower_char a = lower_char b.
Proof.
  intros [-> | [H | H]]; [reflexivity | |];
    apply case_pair_lower in H as (H1 & H2 & _); congruence.
Qed.

Lemma same_letter_isspace a b : same_letter a b -> isspace a = isspace b.
Proof.
  intros [-> | [H | H]]; [reflexivity | |];
    apply case_pair_lower in H as (_ & _ & H1 & H2); congruence.
Qed.

Lemma case_variant_lower s t : case_variant s t -> lower s = lower t.
Proof.
  revert t. induction s as [|a s IH]; intros [|b t]; simpl; try tauto.
  intros [Hab Hst]. rewrite (same_letter_lower _ _ Hab), (IH _ Hst).
  reflexivity.
Qed.

Lemma case_variant_all_space s t :
  case_variant s t -> all_space s = all_space t.
Proof.
  revert t. induction s as [|a s IH]; intros [|b t]; simpl; try tauto.
  intros [Hab Hst]. rewrite (same_letter_isspace _ _ Hab), (IH _ Hst).
  reflexivity.
Qed.

Lemma rstrip_truthy s : truthy (rstrip s) = negb (all_space s).
Proof.
  induction s as [|a s IH]; [reflexivity|]. simpl.
  destruct (rstrip s) as [|c r]; simpl in *.
  - apply (f_equal negb) in IH. rewrite negb_involutive in IH. simpl in IH.
    rewrite <- IH, andb_true_r. destruct (isspace a); reflexivity.
  - apply (f_equal negb) in IH. rewrite negb_involutive in IH. simpl in IH.
    rewrite <- IH, andb_false_r. reflexivity.
Qed.

Lemma lstrip_all_space s : all_space (lstrip s) = all_space s.
Proof.
  induction s as [|a s IH]; [reflexivity|]. simpl.
  destruct (isspace a) eqn:Ha; simpl; [exact IH|]. rewrite Ha. reflexivity.
Qed.

(** A cell counts as filled when one of its characters is not white
    space. *)
Lemma strip_truthy s : truthy (strip s) = negb (all_space s).
Proof. unfold strip. rewrite rstrip_truthy, lstrip_all_space. reflexivity. Qed.

Lemma row_case_variant_joined r1 r2 :
  row_case_variant r1 r2 -> joined r1 = joined r2.
Proof.
  intros H. unfold joined. f_equal.
  induction H as [|s t r1 r2 Hst _ IH]; [reflexivity|]. simpl.
  rewrite (case_variant_lower _ _ Hst), IH. reflexivity.
Qed.

Lemma row_case_variant_non_empty_cells r1 r2 :
  row_case_variant r1 r2 -> non_empty_cells r1 = non_empty_cells r2.
Proof.
  intros H. unfold non_empty_cells.
  induction H as [|s t r1 r2 Hst _ IH]; [reflexivity|].
  rewrite !filter_cons, !strip_truthy, (case_variant_all_space _ _ Hst).
  destruct (decide _); simpl; rewrite IH; reflexivity.
Qed.

Lemma isspace_lower_char a : isspace (lower_char a) = isspace a.
Proof. destruct a as [[] [] [] [] [] [] [] []]; vm_compute; reflexivity. Qed.

Lemma all_space_lower s : all_space (lower s) = all_space s.
Proof.
  induction s as [|a s IH]; [reflexivity|]. simpl.
  rewrite isspace_lower_char, IH. reflexivity.
Qed.

Lemma same_lowered_lower c1 c2 : same_lowered c1 c2 -> lower c1 = lower c2.
Proof. intros [H | H]; [apply case_variant_lower, H | exact H]. Qed.

Lemma same_lowered_all_space c1 c2 :
  same_lowered c1 c2 -> all_space c1 = all_space c2.
Proof.
  intros H. apply same_lowered_lower in H.
  rewrite <- (all_space_lower c1), <- (all_space_lower c2), H. reflexivity.
Qed.

Lemma same_lowered_joined r1 r2 :
  Forall2 same_lowered r1 r2 -> joined r1 = joined r2.
Proof.
  intros H. unfold joined. f_equal.
  induction H as [|s t r1 r2 Hst _ IH]; [reflexivity|]. simpl.
  rewrite (same_lowered_lower _ _ Hst), IH. reflexivity.
Qed.

Lemma same_lowered_non_empty_cells r1 r2 :
  Forall2 same_lowered r1 r2 -> non_empty_cells r1 = non_empty_cells r2.
Proof.
  intros H. unfold non_empty_cells.
  induction H as [|s t r1 r2 Hst _ IH]; [reflexivity|].
  rewrite !filter_cons, !strip_truthy, (same_lowered_all_space _ _ Hst).
  destruct (decide _); simpl; rewrite IH; reflexivity.
Qed.

End CaseFacts.

(** C10, as the script has it.  Two rows of as many cells, whose cells
    at the same position differ letter by letter in case only or have the
    same lower-cased form, get the same classification. *)
Theorem is_valid_data_row_case_invariant (r1 r2 : row) :
  Forall2 same_lowered r1 r2 -> is_valid_data_row r1 = is_valid_data_row r2.
Proof.
  intros H. unfold is_valid_data_row.
  rewrite (same_lowered_joined _ _ H), (same_lowered_non_empty_cells _ _ H).
  reflexivity.
Qed.

Lemma is_valid_data_row_case_invariant_example :
  is_valid_data_row ["WITNESSED"; "yes"; "42%"]
  = is_valid_data_row ["witnessed"; "YeS"; "42%"].
Proof.
  apply is_valid_data_row_case_invariant.
  repeat match goal with |- Forall2 _ _ _ => constructor end.
  - left. cbn [case_variant].
    repeat match goal with |- _ /\ _ => split end; try exact I.
    all: first [ left; reflexivity
               | right; left; split; reflexivity
               | right; right; split; reflexivity ].
  - right. vm_compute. reflexivity.
  - right. reflexivity.
Defined.

(** C10, as stated, fails where changing the case changes the lower-cased
    form: a cell with a sharp s against its upper-case form.  The first
    row has no banned fragment and two filled cells; the second contains
    the banned fragment admission. *)
Lemma sharp_s_rows_classified_differently :
  let r1 := [admission_sharp_s; "12"] in
  let r2 := ["ADMISSION"; "12"] in
  Forall2 differ_in_case r1 r2
  /\ is_valid_data_row r1 = true
  /\ is_valid_data_row r2 = false.
Proof.
  cbv zeta. split; [|split; vm_compute; reflexivity].
  cbv [admission_sharp_s String.append].
  constructor; [|constructor; [|constructor]].
  - apply differ_letter; [right; right; split; reflexivity|].
    apply differ_letter; [right; right; split; reflexivity|].
    apply differ_letter; [right; right; split; reflexivity|].
    apply differ_letter; [right; right; split; reflexivity|].
    apply differ_sharp_s_upper.
    apply differ_letter; [right; right; split; reflexivity|].
    apply differ_letter; [right; right; split; reflexivity|].
    apply differ_letter; [right; right; split; reflexivity|].
    apply differ_nil.
  - apply differ_letter; [left; reflexivity|].
    apply differ_letter; [left; reflexivity|].
    apply differ_nil.
Qed.

(** ** Padding *)

Lemma length_list_mul_singleton {A} (x : A) (n : Z) :
  length (list_mul [x] n) = Z.to_nat n.
Proof.
  unfold list_mul. induction (Z.to_nat n) as [|k IH]; simpl; [reflexivity|].
  rewrite IH. reflexivity.
Qed.

Lemma length_pad (max_cols : nat) (r : row) :
  length (pad max_cols r) = Nat.max max_cols (length r).
Proof. unfold pad. rewrite length_app, length_list_mul_singleton. lia. Qed.

Lemma pad_replicate (max_cols : nat) (r : row) :
  pad max_cols r = r ++ replicate (max_cols - length r) "".
Proof.
  unfold pad, list_mul. f_equal.
  replace (Z.to_nat (Z.of_nat max_cols - Z.of_nat (length r)))
    with (max_cols - length r)%nat by lia.
  induction (max_cols - length r)%nat as [|k IH]; [reflexivity|].
  simpl. rewrite IH. reflexivity.
Qed.

(** C1, as the script has it.  Padding only ever adds cells: a normalized
    row is its candidate row followed by as many empty cells as the
    candidate row has fewer cells than there are headers, so it has as many
    cells as the longer of the header set and the candidate row; a
    candidate row with as many cells as there are headers, or more, is
    left as it is. *)
Theorem normalized_row_length (hdrs : list string) (raw_rows : list row) :
  normalized hdrs raw_rows
  = map (fun r => r ++ replicate (length hdrs - length r) "") raw_rows
  /\ map length (normalized hdrs raw_rows)
     = map (fun r => Nat.max (length hdrs) (length r)) raw_rows
  /\ (forall r, In r raw_rows -> (length hdrs <= length r)%nat ->
                pad (length hdrs) r = r /\ In r (normalized hdrs raw_rows)).
Proof.
  unfold normalized. split; [|split].
  - apply map_ext. intros r. apply pad_replicate.
  - induction raw_rows as [|r rs IH]; [reflexivity|].
    simpl. rewrite length_pad, IH. reflexivity.
  - intros r Hin Hlen.
    assert (pad (length hdrs) r = r) as Hpad.
    { rewrite pad_replicate.
      replace (length hdrs - length r)%nat with 0%nat by lia.
      apply app_nil_r. }
    split; [exact Hpad|]. rewrite <- Hpad at 1.
    apply in_map. exact Hin.
Qed.

(** C1, as stated, fails on the first row of a page whose line holds two
    words when one header is declared. *)
Lemma normalized_row_longer_than_headers :
  exists raw_rows r,
    extract_text_rows sample_page = Ok raw_rows
    /\ In r (normalized ["Category"] raw_rows)
    /\ length r <> length ["Category"].
Proof.
  exists [["CARES report"]; ["Witnessed"; "42%"]; ["Yes"]; ["Utstein"]],
    ["Witnessed"; "42%"].
  split; [vm_compute; reflexivity|].
  split; [simpl; auto | simpl; lia].
Qed.

(** ** Page numbers *)

Lemma getitem_negative {A} (l : list A) (i : Z) :
  i < 0 ->
  if bool_decide (i < - Z.of_nat (length l)) then getitem l i = Raise IndexError
  else exists x, l !! Z.to_nat (Z.of_nat (length l) + i) = Some x
                 /\ getitem l i = Ok x.
Proof.
  intros Hi. unfold getitem.
  destruct (Z.ltb_spec i 0) as [_|]; [|lia].
  case_bool_decide as Hlen.
  - destruct (Z.ltb_spec (i + Z.of_nat (length l)) 0); [reflexivity | lia].
  - destruct (Z.ltb_spec (i + Z.of_nat (length l)) 0); [lia|].
    replace (i + Z.of_nat (length l)) with (Z.of_nat (length l) + i) by lia.
    destruct (l !! Z.to_nat (Z.of_nat (length l) + i)) as [x|] eqn:Hx.
    + exists x. split; reflexivity.
    + apply lookup_ge_None in Hx. lia.
Qed.

Lemma process_page_no_page ts (pdf_pages : list page) hs idx page_num :
  getitem pdf_pages page_num = Raise IndexError ->
  process_page ts pdf_pages hs idx page_num = ([], Raise IndexError).
Proof.
  intros H. unfold process_page, getitem at 1.
  destruct (Z.ltb_spec (Z.of_nat idx) 0); [lia|].
  destruct (Z.ltb_spec (Z.of_nat idx) 0); [lia|].
  destruct (hs !! _); simpl; [rewrite H|]; reflexivity.
Qed.

(** C2, as the script has it.  A page number [p <= 0] gives the negative
    index [p - 1], which counts from the end of the document: the access
    raises, and the loop stops there, only when [p <= - len pages];
    otherwise the page at position [len pages + p - 1] is selected (page
    number 0 is the last page). *)
Theorem nonpositive_page_number (pdf_pages : list page) (p : Z) :
  p <= 0 ->
  let n := Z.of_nat (length pdf_pages) in
  if bool_decide (p <= - n) then
    getitem pdf_pages (p - 1) = Raise IndexError
    /\ forall ts hs idx rest,
         page_loop ts pdf_pages hs idx ((p - 1) :: rest)
         = ([], Raise IndexError)
  else
    exists pg, pdf_pages !! Z.to_nat (n + p - 1) = Some pg
               /\ getitem pdf_pages (p - 1) = Ok pg.
Proof.
  intros Hp n.
  pose proof (getitem_negative pdf_pages (p - 1) ltac:(lia)) as H.
  fold n in H.
  destruct (decide (p <= - n)) as [Hn|Hn].
  - rewrite bool_decide_eq_true_2 by exact Hn.
    rewrite bool_decide_eq_true_2 in H by lia.
    split; [exact H|].
    intros ts hs idx rest. simpl.
    rewrite (process_page_no_page _ _ _ _ _ H). reflexivity.
  - rewrite bool_decide_eq_false_2 by exact Hn.
    rewrite bool_decide_eq_false_2 in H by lia.
    destruct H as [pg [Hl Hg]]. exists pg.
    replace (n + p - 1) with (n + (p - 1)) by lia. split; assumption.
Qed.

Lemma nonpositive_page_number_example :
  exists pg, [sample_page] !! Z.to_nat (1 + 0 - 1) = Some pg
             /\ getitem [sample_page] (0 - 1) = Ok pg.
Proof. apply (nonpositive_page_number [sample_page] 0). lia. Defined.

(** C2, as stated, fails for page number 0 on a document of one page: the
    run ends without an exception and writes the last page as page 0. *)
Lemma page_zero_selects_last_page :
  let out := main (Args "report.pdf" [0] [["Category"; "Value"]]) sample_world in
  snd out = Ok tt
  /\ written (fst out)
     = [("page_0_cleaned_2026-01-01_00-00.csv",
         Frame ["Category"; "Value"]
           [[Some "Witnessed"; Some "42%"]; [Some "Utstein"; Some ""]])].
Proof. vm_compute. split; reflexivity. Qed.

(** ** Header sets and pages *)

(** C8.  When the number of header sets differs from the number of pages,
    the run raises [ValueError] with its message before the PDF is opened:
    the trace is empty, so no file is written. *)
Theorem header_count_mismatch (a : args) (w : world) :
  length (headers a) <> length (pages a) ->
  main a w = ([], Raise (ValueError mismatch_message))
  /\ written (fst (main a w)) = [].
Proof.
  intros H.
  assert (main a w = ([], Raise (ValueError mismatch_message))) as ->.
  { unfold main. rewrite length_map.
    destruct (Nat.eqb_spec (length (headers a)) (length (pages a)));
      [contradiction | reflexivity]. }
  split; reflexivity.
Qed.

Lemma header_count_mismatch_example :
  main (Args "report.pdf" [1; 2] [["Category"; "Value"]]) sample_world
  = ([], Raise (ValueError mismatch_message))
  /\ written
       (fst (main (Args "report.pdf" [1; 2] [["Category"; "Value"]])
               sample_world)) = [].
Proof.
  apply (header_count_mismatch
           (Args "report.pdf" [1; 2] [["Category"; "Value"]]) sample_world).
  simpl. lia.
Defined.

(** ** The row extractor *)

Lemma row_of_key_cons (w : word) (ws : list word) (y : Z) :
  row_of_key (w :: ws) y
  = match top w, text w with
    | Some y0, Some t =>
        if decide (round1 y0 = y) then t :: row_of_key ws y
        else row_of_key ws y
    | _, _ => row_of_key ws y
    end.
Proof.
  unfold row_of_key. simpl.
  destruct (top w) as [y0|], (text w) as [t|]; try reflexivity.
  destruct (decide (round1 y0 = y)); reflexivity.
Qed.

(** The dictionary built by the loop: under each key, what was there
    before followed by the texts of the words of that key. *)
Lemma group_words_lookup (ws : list word) (d : gmap Z (list string)) :
  exists d', group_words ws d = Ok d'
    /\ forall y, d' !! y = match row_of_key ws y with
                           | [] => d !! y
                           | l => Some (default [] (d !! y) ++ l)
                           end.
Proof.
  revert d. induction ws as [|w ws IH]; intros d.
  - exists d. split; [reflexivity|]. intros y. reflexivity.
  - cbn [group_words].
    destruct (top w) as [y0|] eqn:Htop, (text w) as [t|] eqn:Htext;
      cbn [has andb get bindR].
    2-4: destruct (IH d) as [d' [Hd' Hl]]; exists d'; split; [exact Hd'|];
         intros y; rewrite row_of_key_cons, Htop, ?Htext; apply Hl.
    destruct (IH (setdefault_append (round1 y0) t d)) as [d' [Hd' Hl]].
    exists d'. split; [exact Hd'|]. intros y.
    rewrite row_of_key_cons, Htop, Htext, Hl. unfold setdefault_append.
    destruct (decide (round1 y0 = y)) as [->|Hne].
    + rewrite lookup_insert_eq. simpl.
      destruct (row_of_key ws y) as [|t' l]; [reflexivity|].
      rewrite <- app_assoc. reflexivity.
    + rewrite lookup_insert_ne by exact Hne. reflexivity.
Qed.

Lemma row_of_key_nonempty (ws : list word) (y : Z) :
  row_of_key ws y <> [] <-> exists w, In w ws /\ key_of w = Some y.
Proof.
  induction ws as [|w ws IH].
  - simpl. split; [congruence | intros [w [[] _]]].
  - rewrite row_of_key_cons. unfold key_of at 1.
    split.
    + destruct (top w) as [y0|] eqn:Htop, (text w) as [t|] eqn:Htext.
      1: destruct (decide (round1 y0 = y)) as [<-|Hne].
      1: { intros _. exists w. split; [left; reflexivity|].
           unfold key_of. rewrite Htop, Htext. reflexivity. }
      all: intros H; apply IH in H as [w' [Hin Hk]]; exists w';
        (split; [right; exact Hin | exact Hk]).
    + intros [w' [[<-|Hin] Hk]].
      * unfold key_of in Hk.
        destruct (top w) as [y0|], (text w) as [t|]; try discriminate Hk.
        injection Hk as Hk. rewrite decide_True by exact Hk. discriminate.
      * assert (row_of_key ws y <> []) as Hne by (apply IH; eauto).
        destruct (top w) as [y0|], (text w) as [t|]; try exact Hne.
        destruct (decide (round1 y0 = y)); [discriminate | exact Hne].
Qed.

Lemma StronglySorted_le_lt (l : list Z) :
  StronglySorted Z.le l -> NoDup l -> StronglySorted Z.lt l.
Proof.
  induction 1 as [|x l Hl IH Hx]; intros Hnd; constructor.
  - apply IH. apply NoDup_cons_1_2 in Hnd. exact Hnd.
  - apply NoDup_cons in Hnd as [Hx' _].
    rewrite List.Forall_forall in *. intros y Hy.
    specialize (Hx y Hy). assert (x <> y); [|lia].
    intros ->. apply Hx'. apply list_elem_of_In. exact Hy.
Qed.

Lemma mapR_ok {A B} (f : A -> result B) (g : A -> B) (l : list A) :
  (forall x, In x l -> f x = Ok (g x)) -> mapR f l = Ok (map g l).
Proof.
  induction l as [|x l IH]; intros H; [reflexivity|]. simpl.
  rewrite (H x) by (left; reflexivity). simpl.
  rewrite IH by (intros y Hy; apply H; right; exact Hy). reflexivity.
Qed.

(** What the extractor returns: it never raises; its rows are those of the
    rounded offsets that occur among the words with both attributes, each
    offset once, in strictly ascending order; and the row of an offset
    holds the texts of exactly the words of that offset, in reading order. *)
Lemma extract_text_rows_spec (p : page) :
  exists ks,
    StronglySorted Z.lt ks
    /\ (forall y, In y ks <-> exists w, In w (extract_words p)
                                        /\ key_of w = Some y)
    /\ extract_text_rows p = Ok (map (row_of_key (extract_words p)) ks).
Proof.
  unfold extract_text_rows.
  destruct (group_words_lookup (extract_words p) ∅) as [d [-> Hd]]. simpl.
  assert (Hdom : forall y, In y (sorted (keys d))
                           <-> row_of_key (extract_words p) y <> []).
  { intros y. unfold sorted, keys.
    rewrite <- list_elem_of_In, merge_sort_Permutation, list_elem_of_fmap.
    split.
    - intros [[y' l] [-> Hin]]. simpl.
      apply elem_of_map_to_list in Hin. rewrite Hd, lookup_empty in Hin.
      destruct (row_of_key (extract_words p) y'); [discriminate Hin|].
      discriminate.
    - intros Hne. exists (y, row_of_key (extract_words p) y).
      split; [reflexivity|]. apply elem_of_map_to_list.
      rewrite Hd, lookup_empty.
      destruct (row_of_key (extract_words p) y); [contradiction|].
      reflexivity. }
  exists (sorted (keys d)). split; [|split].
  - apply StronglySorted_le_lt.
    + unfold sorted. apply (StronglySorted_merge_sort Z.le).
    + unfold sorted, keys. rewrite merge_sort_Permutation.
      apply NoDup_fst_map_to_list.
  - intros y. rewrite Hdom. apply row_of_key_nonempty.
  - apply mapR_ok. intros y Hy. apply Hdom in Hy.
    unfold dict_getitem. rewrite Hd, lookup_empty.
    destruct (row_of_key (extract_words p) y); [contradiction|].
    reflexivity.
Qed.

Lemma group_words_well_formed (ws : list word) (d : gmap Z (list string)) :
  group_words (List.filter well_formed ws) d = group_words ws d.
Proof.
  revert d. induction ws as [|w ws IH]; intros d; [reflexivity|].
  cbn [List.filter group_words]. unfold well_formed at 1.
  destruct (has (top w) && has (text w)) eqn:Hw; [|apply IH].
  cbn [group_words]. rewrite Hw.
  destruct (get (top w)); [|reflexivity]. cbn [bindR].
  destruct (get (text w)); [|reflexivity]. cbn [bindR]. apply IH.
Qed.

Lemma NoDup_lookup_unique (ks : list Z) (y : Z) :
  NoDup ks -> In y ks ->
  exists k, ks !! k = Some y /\ forall k', ks !! k' = Some y -> k' = k.
Proof.
  intros Hnd Hin. apply list_elem_of_In, list_elem_of_lookup in Hin as [k Hk].
  exists k. split; [exact Hk|]. intros k' Hk'.
  exact (NoDup_lookup _ _ _ _ Hnd Hk' Hk).
Qed.

Lemma StronglySorted_lookup_lt (ks : list Z) (i j : nat) (x y : Z) :
  StronglySorted Z.lt ks -> ks !! i = Some x -> ks !! j = Some y ->
  (i < j)%nat -> x < y.
Proof.
  intros Hs. revert i j. induction Hs as [|z l _ IH Hz]; intros i j Hi Hj Hij.
  - discriminate Hi.
  - destruct j as [|j]; [lia|]. destruct i as [|i].
    + injection Hi as <-. rewrite List.Forall_forall in Hz. apply Hz.
      apply list_elem_of_In, list_elem_of_lookup. exists j. exact Hj.
    + apply (IH i j); [exact Hi | exact Hj | lia].
Qed.

Lemma StronglySorted_lt_NoDup (ks : list Z) :
  StronglySorted Z.lt ks -> NoDup ks.
Proof.
  induction 1 as [|x l _ IH Hx]; constructor; [|exact IH].
  intros Hin. apply list_elem_of_In in Hin.
  rewrite List.Forall_forall in Hx. specialize (Hx x Hin). lia.
Qed.

(** C7.  The rows of a page correspond one to one to the rounded offsets
    of its words that have both attributes: such a word lands in the one
    row of its rounded offset, the row of an offset holds the texts of
    exactly the words of that offset, and the words that lack an attribute
    leave the result unchanged, which is never an exception. *)
Theorem grouping_by_rounded_offset (p : page) :
  exists ks,
    NoDup ks
    /\ extract_text_rows p = Ok (map (row_of_key (extract_words p)) ks)
    /\ (forall y, In y ks <-> exists w, In w (extract_words p)
                                        /\ key_of w = Some y)
    /\ (forall w y, In w (extract_words p) -> key_of w = Some y ->
          exists k, ks !! k = Some y
                    /\ forall k', ks !! k' = Some y -> k' = k)
    /\ extract_text_rows (Page (List.filter well_formed (extract_words p)))
       = extract_text_rows p.
Proof.
  destruct (extract_text_rows_spec p) as [ks (Hs & Hin & Hrows)].
  exists ks. pose proof (StronglySorted_lt_NoDup ks Hs) as Hnd.
  repeat split; try assumption; try (apply Hin).
  - intros w y Hw Hk. apply NoDup_lookup_unique; [exact Hnd|].
    apply Hin. exists w. split; assumption.
  - unfold extract_text_rows. cbn [extract_words].
    rewrite group_words_well_formed. reflexivity.
Qed.

Example extract_text_rows_sample :
  extract_text_rows sample_page
  = Ok [["CARES report"]; ["Witnessed"; "42%"]; ["Yes"]; ["Utstein"]]
  /\ map (row_of_key (extract_words sample_page)) [500; 1200; 1201; 1500]
     = [["CARES report"]; ["Witnessed"; "42%"]; ["Yes"]; ["Utstein"]].
Proof. vm_compute. split; reflexivity. Qed.

(** ** The written table *)

Lemma filtered_sublist (hdrs : list string) (raw_rows : list row) :
  sublist (filtered hdrs raw_rows) (normalized hdrs raw_rows).
Proof. unfold filtered. apply sublist_filter. Qed.

Lemma length_le_max_len (data : list row) (r : row) :
  In r data -> (length r <= max_len data)%nat.
Proof.
  induction data as [|r' data IH]; [intros []|].
  intros [<-|Hin]; simpl; [lia|]. specialize (IH Hin). lia.
Qed.

Lemma filtered_row_length (hdrs : list string) (raw_rows : list row) (r : row) :
  In r (filtered hdrs raw_rows) -> (length hdrs <= length r)%nat.
Proof.
  intros Hin. apply list_elem_of_In in Hin. unfold filtered in Hin.
  apply list_elem_of_filter in Hin as [_ Hin].
  apply list_elem_of_In in Hin. unfold normalized in Hin.
  apply in_map_iff in Hin as [r0 [<- _]]. rewrite length_pad. lia.
Qed.

Lemma map_fill_none (n : nat) (data : list row) :
  (forall r, In r data -> (n <= length r)%nat) ->
  map (fun r => map Some r ++ replicate (n - length r) None) data
  = map (map Some) data.
Proof.
  intros H. apply map_ext_in. intros r Hr. specialize (H r Hr).
  replace (n - length r)%nat with 0%nat by lia. simpl. apply app_nil_r.
Qed.

(** When the frame is built from the filtered rows, it holds these rows
    as they are. *)
Lemma pd_DataFrame_filtered (hdrs : list string) (raw_rows : list row) df :
  pd_DataFrame (filtered hdrs raw_rows) hdrs = Ok df ->
  df = Frame hdrs (map (map Some) (filtered hdrs raw_rows)).
Proof.
  pose proof (filtered_row_length hdrs raw_rows) as Hge.
  pose proof (length_le_max_len (filtered hdrs raw_rows)) as Hle.
  unfold pd_DataFrame.
  destruct (filtered hdrs raw_rows) as [|r0 data].
  - intros [= <-]. reflexivity.
  - destruct (Nat.eqb_spec (max_len (r0 :: data)) (length hdrs)) as [Hn|];
      [|discriminate].
    intros H. injection H as <-. f_equal.
    refine (map_fill_none (max_len (r0 :: data)) (r0 :: data) _).
    intros r Hr. specialize (Hge r Hr). specialize (Hle r Hr). lia.
Qed.

(** C6.  The candidate rows of a page come in strictly ascending order of
    rounded offset, the validated rows are a subsequence of the normalized
    rows, and the frame that is written holds the validated rows in that
    order. *)
Theorem rows_in_vertical_order (p : page) (hdrs : list string) :
  exists ks raw_rows,
    StronglySorted Z.lt ks
    /\ (forall y, In y ks <-> exists w, In w (extract_words p)
                                        /\ key_of w = Some y)
    /\ extract_text_rows p = Ok raw_rows
    /\ raw_rows = map (row_of_key (extract_words p)) ks
    /\ sublist (filtered hdrs raw_rows) (normalized hdrs raw_rows)
    /\ forall df, pd_DataFrame (filtered hdrs raw_rows) hdrs = Ok df ->
                  df = Frame hdrs (map (map Some) (filtered hdrs raw_rows)).
Proof.
  destruct (extract_text_rows_spec p) as [ks (Hs & Hin & Hrows)].
  exists ks, (map (row_of_key (extract_words p)) ks).
  repeat split; try assumption; try (apply Hin).
  - apply filtered_sublist.
  - apply pd_DataFrame_filtered.
Qed.

Example filtered_sample :
  filtered ["Category"; "Value"]
    [["CARES report"]; ["Witnessed"; "42%"]; ["Yes"]; ["Utstein"]]
  = [["Witnessed"; "42%"]; ["Utstein"; ""]].
Proof. vm_compute. reflexivity. Qed.

(** ** Pages without data rows *)

(** C9.  A page without fragments has no candidate rows; and when no
    normalized row of a page is valid, the page is written as a table of
    its headers and no rows, its name is printed, and the loop goes on to
    the next page. *)
Theorem empty_page_result ts (pdf_pages : list page)
    (all_headers : list (list string)) (idx : nat) (page_num : Z)
    (rest : list Z) (hdrs : list string) (pg : page) :
  getitem all_headers (Z.of_nat idx) = Ok hdrs ->
  getitem pdf_pages page_num = Ok pg ->
  (forall raw_rows r, extract_text_rows pg = Ok raw_rows ->
     In r (normalized hdrs raw_rows) -> is_valid_data_row r = false) ->
  extract_text_rows blank_page = Ok []
  /\ page_loop ts pdf_pages all_headers idx (page_num :: rest)
     = (let '(t, res) := page_loop ts pdf_pages all_headers (S idx) rest in
        ([ ToCsv (output_name ts page_num) (Frame hdrs []);
           Print ("Saved: " +:+ output_name ts page_num) ] ++ t, res)).
Proof.
  intros Hh Hp Hnone. split; [vm_compute; reflexivity|].
  destruct (extract_text_rows_spec pg) as [ks (_ & _ & Hrows)].
  assert (filtered hdrs (map (row_of_key (extract_words pg)) ks) = [])
    as Hf.
  { unfold filtered.
    destruct (filter _ _) as [|r rs] eqn:Hf; [reflexivity|].
    assert (r ∈ r :: rs) as Hr by (left; reflexivity).
    rewrite <- Hf in Hr. apply list_elem_of_filter in Hr as [Hv Hr].
    apply list_elem_of_In in Hr. rewrite (Hnone _ r Hrows Hr) in Hv.
    discriminate Hv. }
  cbn [page_loop]. unfold process_page.
  rewrite Hh. cbn [lift bindM app]. rewrite Hp. cbn [lift bindM app].
  rewrite Hrows. cbn [lift bindM app]. rewrite Hf.
  cbn [pd_DataFrame lift bindM emit app].
  destruct (page_loop ts pdf_pages all_headers (S idx) rest) as [t res].
  reflexivity.
Qed.

Lemma empty_page_result_example :
  extract_text_rows blank_page = Ok []
  /\ page_loop "2026-01-01_00-00" [furniture_page; sample_page]
       [["Category"; "Value"]; ["Metric"; "Rate"]] 0 [0; 1]
     = (let '(t, res) :=
          page_loop "2026-01-01_00-00" [furniture_page; sample_page]
            [["Category"; "Value"]; ["Metric"; "Rate"]] 1 [1] in
        ([ ToCsv (output_name "2026-01-01_00-00" 0)
             (Frame ["Category"; "Value"] []);
           Print ("Saved: " +:+ output_name "2026-01-01_00-00" 0) ] ++ t,
         res)).
Proof.
  apply (empty_page_result "2026-01-01_00-00" [furniture_page; sample_page]
           [["Category"; "Value"]; ["Metric"; "Rate"]] 0 0 [1]
           ["Category"; "Value"] furniture_page).
  - reflexivity.
  - reflexivity.
  - intros raw_rows r H. vm_compute in H. injection H as <-.
    simpl. intros [<-|[<-|[]]]; vm_compute; reflexivity.
Defined.

(** * Further properties *)

(** ** More on strings *)

Lemma sapp_cons (a : ascii) (s t : string) :
  String a s +:+ t = String a (s +:+ t).
Proof. reflexivity. Qed.

Lemma sapp_nil_l (s : string) : "" +:+ s = s.
Proof. reflexivity. Qed.

Lemma sapp_assoc (s t u : string) : (s +:+ t) +:+ u = s +:+ (t +:+ u).
Proof.
  induction s as [|a s IH]; [reflexivity|].
  rewrite !sapp_cons, IH. reflexivity.
Qed.

Lemma sapp_nil_r (s : string) : s +:+ "" = s.
Proof.
  induction s as [|a s IH]; [reflexivity|]. rewrite sapp_cons, IH.
  reflexivity.
Qed.

Lemma sapp_eq_nil (s t : string) : s +:+ t = "" -> s = "" /\ t = "".
Proof.
  destruct s; [rewrite sapp_nil_l; auto | rewrite sapp_cons; discriminate].
Qed.

Lemma is_substring_refl (s : string) : is_substring s s.
Proof. exists "", "". rewrite sapp_nil_l. symmetry. apply sapp_nil_r. Qed.

Lemma is_prefix_substring (p s : string) : is_prefix p s -> is_substring p s.
Proof. intros [post H]. exists "", post. exact H. Qed.

Lemma is_substring_trans (k s t : string) :
  is_substring k s -> is_substring s t -> is_substring k t.
Proof.
  intros [a [b ->]] [c [d ->]]. exists (c +:+ a), (b +:+ d).
  rewrite !sapp_assoc. reflexivity.
Qed.

Lemma is_substring_app_l (k s t : string) :
  is_substring k s -> is_substring k (s +:+ t).
Proof.
  intros H. apply (is_substring_trans _ _ _ H). exists "", t. reflexivity.
Qed.

Lemma is_substring_app_r (k s t : string) :
  is_substring k t -> is_substring k (s +:+ t).
Proof.
  intros H. apply (is_substring_trans _ _ _ H). exists s, "".
  rewrite sapp_nil_r. reflexivity.
Qed.

Lemma is_prefix_app_l (p s t : string) :
  is_prefix p s -> is_prefix p (s +:+ t).
Proof. intros [post ->]. exists (post +:+ t). apply sapp_assoc. Qed.

Lemma all_space_app (s t : string) :
  all_space (s +:+ t) = all_space s && all_space t.
Proof.
  induction s as [|a s IH]; [reflexivity|].
  rewrite sapp_cons. cbn [all_space]. rewrite IH, andb_assoc. reflexivity.
Qed.

Lemma is_substring_all_space (k s : string) :
  is_substring k s -> all_space s = true -> all_space k = true.
Proof.
  intros [a [b ->]]. rewrite !all_space_app, !andb_true_iff. tauto.
Qed.

Lemma join_cons (sep x : string) (l : list string) :
  l <> [] -> PyStr.join sep (x :: l) = x +:+ sep +:+ PyStr.join sep l.
Proof. destruct l; [congruence | reflexivity]. Qed.

Lemma join_head_prefix (sep x : string) (l : list string) :
  is_prefix x (PyStr.join sep (x :: l)).
Proof.
  destruct l as [|y l].
  - exists "". symmetry. apply sapp_nil_r.
  - exists (sep +:+ PyStr.join sep (y :: l)). reflexivity.
Qed.

Lemma join_substring (sep x : string) (l : list string) :
  In x l -> is_substring x (PyStr.join sep l).
Proof.
  induction l as [|y l IH]; [intros []|]. intros [->|Hin].
  - apply is_prefix_substring, join_head_prefix.
  - destruct l as [|z l]; [destruct Hin|].
    rewrite join_cons by discriminate.
    apply is_substring_app_r, is_substring_app_r, IH, Hin.
Qed.

Lemma existsb_ext_in {A} (f g : A -> bool) (l : list A) :
  (forall x, In x l -> f x = g x) -> existsb f l = existsb g l.
Proof.
  induction l as [|x l IH]; intros H; [reflexivity|]. simpl.
  rewrite (H x) by (left; reflexivity).
  rewrite IH by (intros y Hy; apply H; right; exact Hy). reflexivity.
Qed.

(** ** The row filter: the whole decision *)

(** X1.  A row is kept exactly when its joined string starts with no
    footnote marker, contains no banned fragment, and either contains an
    allow keyword or the row has two or more non-blank cells. *)
Theorem is_valid_data_row_iff (r : row) :
  is_valid_data_row r = true
  <-> ~ starts_with_any footnote_starts (joined r)
      /\ ~ contains_any banned_fragments (joined r)
      /\ (contains_any allow_keywords (joined r)
          \/ (2 <= non_empty_cells r)%nat).
Proof.
  unfold is_valid_data_row. cbv zeta.
  rewrite <- starts_with_any_spec, <- !contains_any_spec.
  destruct (existsb _ footnote_starts); [split; [discriminate | tauto]|].
  destruct (existsb _ banned_fragments); [split; [discriminate | tauto]|].
  destruct (existsb _ allow_keywords);
    [split; [intros _; repeat split; try discriminate; auto | reflexivity]|].
  destruct (Nat.leb_spec (non_empty_cells r) 1).
  - split; [discriminate|]. intros (_ & _ & [H' | H']); [discriminate | lia].
  - split; [|reflexivity]. intros _.
    repeat split; try discriminate. right. lia.
Qed.

Lemma is_prefix_trans (p s t : string) :
  is_prefix p s -> is_prefix s t -> is_prefix p t.
Proof.
  intros [a ->] [b ->]. exists (a +:+ b). apply sapp_assoc.
Qed.

(** X2.  A row is rejected as soon as one of its cells, lower-cased and
    stripped, contains a banned fragment, wherever the cell stands. *)
Theorem banned_cell_rejected (r : row) (c : string) :
  In c r ->
  contains_any banned_fragments (PyStr.strip (PyStr.lower c)) ->
  is_valid_data_row r = false.
Proof.
  intros Hin [k [Hk Hsub]].
  assert (contains_any banned_fragments (joined r)) as H.
  { exists k. split; [exact Hk|].
    apply (is_substring_trans _ _ _ Hsub). unfold joined.
    apply join_substring.
    exact (in_map (fun cell => PyStr.strip (PyStr.lower cell)) r c Hin). }
  apply contains_any_spec in H.
  unfold is_valid_data_row. cbv zeta. rewrite H.
  destruct (existsb _ footnote_starts); reflexivity.
Qed.

Lemma banned_cell_rejected_example :
  is_valid_data_row ["Witnessed"; "  ROSC in field "; "42%"] = false.
Proof.
  apply (banned_cell_rejected _ "  ROSC in field ").
  - simpl. auto.
  - exists "rosc". split; [simpl; auto|].
    exists "", " in field". vm_compute. reflexivity.
Defined.

(** X3.  A row is rejected when its first cell, lower-cased and stripped,
    starts with a footnote marker, whatever the other cells hold. *)
Theorem footnote_first_cell_rejected (c : string) (rest : row) :
  starts_with_any footnote_starts (PyStr.strip (PyStr.lower c)) ->
  is_valid_data_row (c :: rest) = false.
Proof.
  intros [f [Hf Hpre]].
  assert (starts_with_any footnote_starts (joined (c :: rest))) as H.
  { exists f. split; [exact Hf|].
    apply (is_prefix_trans _ _ _ Hpre). unfold joined. cbn [map].
    apply join_head_prefix. }
  apply starts_with_any_spec in H.
  unfold is_valid_data_row. cbv zeta. rewrite H. reflexivity.
Qed.

Lemma footnote_first_cell_rejected_example :
  is_valid_data_row [" April 2023 data"; "Utstein"; "12"; "40%"] = false.
Proof.
  apply footnote_first_cell_rejected.
  exists "april". split; [simpl; auto|].
  exists " 2023 data". vm_compute. reflexivity.
Defined.

(** ** The row filter: blank cells *)

Section BlankFacts.

Import PyStr.

Lemma strip_blank s : all_space s = true -> strip s = "".
Proof.
  intros H. pose proof (strip_truthy s) as Ht. rewrite H in Ht.
  destruct (strip s); [reflexivity | discriminate Ht].
Qed.

Lemma strip_not_blank s : all_space s = false -> strip s <> "".
Proof.
  intros H. pose proof (strip_truthy s) as Ht. rewrite H in Ht.
  destruct (strip s); [discriminate Ht | discriminate].
Qed.

Lemma join_all_space (l : list string) :
  Forall (fun c => all_space c = true) l -> all_space (join " " l) = true.
Proof.
  induction 1 as [|c l Hc Hl IH]; [reflexivity|].
  destruct l as [|c' l]; [exact Hc|].
  rewrite join_cons by discriminate.
  rewrite !all_space_app, Hc, IH. reflexivity.
Qed.

Lemma no_fragment_in_blank (ks : list string) (j : string) :
  all_space j = true ->
  forallb (fun k => negb (all_space k)) ks = true ->
  existsb (fun k => contains k j) ks = false.
Proof.
  intros Hj Hks. apply not_true_is_false. intros H.
  apply contains_any_spec in H as [k [Hk Hsub]].
  rewrite forallb_forall in Hks. specialize (Hks k Hk).
  rewrite (is_substring_all_space _ _ Hsub Hj) in Hks. discriminate Hks.
Qed.

Lemma no_start_in_blank (ps : list string) (j : string) :
  all_space j = true ->
  forallb (fun k => negb (all_space k)) ps = true ->
  existsb (fun p => startswith j p) ps = false.
Proof.
  intros Hj Hps. apply not_true_is_false. intros H.
  apply starts_with_any_spec in H as [k [Hk Hpre]].
  rewrite forallb_forall in Hps. specialize (Hps k Hk).
  apply is_prefix_substring in Hpre.
  rewrite (is_substring_all_space _ _ Hpre Hj) in Hps. discriminate Hps.
Qed.

Lemma non_empty_cells_blank (r : row) :
  Forall (fun c => all_space c = true) r -> non_empty_cells r = 0%nat.
Proof.
  unfold non_empty_cells. induction 1 as [|c r Hc _ IH]; [reflexivity|].
  rewrite filter_cons, strip_truthy, Hc. simpl. exact IH.
Qed.

End BlankFacts.

(** X4.  A row all of whose cells are empty or white space is rejected;
    so is the row without cells. *)
Theorem blank_row_rejected (r : row) :
  Forall (fun c => all_space c = true) r -> is_valid_data_row r = false.
Proof.
  intros H.
  assert (all_space (joined r) = true) as Hj.
  { unfold joined. apply join_all_space.
    apply List.Forall_map. eapply List.Forall_impl; [|exact H].
    intros c Hc. simpl. rewrite strip_blank; [reflexivity|].
    rewrite all_space_lower. exact Hc. }
  unfold is_valid_data_row. cbv zeta.
  rewrite (no_start_in_blank _ _ Hj) by (vm_compute; reflexivity).
  rewrite !(no_fragment_in_blank _ _ Hj) by (vm_compute; reflexivity).
  rewrite (non_empty_cells_blank _ H). reflexivity.
Qed.

Lemma blank_row_rejected_example : is_valid_data_row [" "; ""; "  "] = false.
Proof.
  apply blank_row_rejected. repeat constructor.
Defined.

(** ** The row filter and padding *)

Lemma sapp_snoc_inv (s t u : string) (c : ascii) :
  s +:+ String c "" = t +:+ u ->
  (u = "" /\ t = s +:+ String c "")
  \/ exists u', u = u' +:+ String c "" /\ s = t +:+ u'.
Proof.
  revert s. induction t as [|a t IH]; intros s H.
  - right. exists s. rewrite sapp_nil_l in *. split; [symmetry; exact H|].
    reflexivity.
  - destruct s as [|b s].
    + rewrite sapp_nil_l, sapp_cons in H. injection H as -> H.
      symmetry in H. apply sapp_eq_nil in H as [-> ->].
      left. split; reflexivity.
    + rewrite !sapp_cons in H. injection H as -> H.
      destruct (IH s H) as [[-> ->] | [u' [-> ->]]].
      * left. split; reflexivity.
      * right. exists u'. split; reflexivity.
Qed.

Lemma last_char_snoc (s : string) (c : ascii) :
  last_char (s +:+ String c "") = Some c.
Proof.
  induction s as [|a s IH]; [reflexivity|]. rewrite sapp_cons.
  cbn [last_char]. rewrite IH.
  destruct (s +:+ String c "") eqn:E; [|reflexivity].
  apply sapp_eq_nil in E as [_ E]. discriminate E.
Qed.

Lemma ends_nonspace_snoc_space (s : string) :
  ends_nonspace (s +:+ " ") = false.
Proof. unfold ends_nonspace. rewrite last_char_snoc. reflexivity. Qed.

(** A fragment that does not end in a space is found in [s] followed by a
    space only if it is found in [s]. *)
Lemma is_substring_snoc_space (k s : string) :
  ends_nonspace k = true -> is_substring k (s +:+ " ") <-> is_substring k s.
Proof.
  intros Hk. split; [|apply is_substring_app_l].
  intros [pre [post H]].
  apply sapp_snoc_inv in H as [[H _] | [u' [H ->]]].
  - apply sapp_eq_nil in H as [-> _]. discriminate Hk.
  - symmetry in H. apply sapp_snoc_inv in H as [[_ ->] | [p' [_ ->]]].
    + rewrite ends_nonspace_snoc_space in Hk. discriminate Hk.
    + exists pre, p'. reflexivity.
Qed.

Lemma is_prefix_snoc_space (p s : string) :
  ends_nonspace p = true -> is_prefix p (s +:+ " ") <-> is_prefix p s.
Proof.
  intros Hp. split; [|apply is_prefix_app_l].
  intros [post H].
  apply sapp_snoc_inv in H as [[_ ->] | [p' [_ ->]]].
  - rewrite ends_nonspace_snoc_space in Hp. discriminate Hp.
  - exists p'. reflexivity.
Qed.

Lemma join_snoc (sep x : string) (l : list string) :
  l <> [] -> PyStr.join sep (l ++ [x]) = PyStr.join sep l +:+ sep +:+ x.
Proof.
  induction l as [|y l IH]; [congruence|]. intros _.
  destruct l as [|z l]; [reflexivity|].
  change ((y :: z :: l) ++ [x]) with (y :: ((z :: l) ++ [x])).
  rewrite join_cons by (simpl; discriminate). rewrite IH by discriminate.
  rewrite (join_cons sep y (z :: l)) by discriminate.
  rewrite !sapp_assoc. reflexivity.
Qed.

Lemma joined_snoc_empty (r : row) :
  r <> [] -> joined (r ++ [""]) = joined r +:+ " ".
Proof.
  intros Hr. unfold joined. rewrite map_app. cbn [map].
  rewrite join_snoc by (destruct r; [congruence | discriminate]).
  change (PyStr.strip (PyStr.lower "")) with "".
  rewrite sapp_nil_r. reflexivity.
Qed.

Lemma non_empty_cells_snoc_empty (r : row) :
  non_empty_cells (r ++ [""]) = non_empty_cells r.
Proof.
  unfold non_empty_cells. rewrite filter_app, length_app. simpl. lia.
Qed.

Lemma is_valid_data_row_snoc_empty (r : row) :
  is_valid_data_row (r ++ [""]) = is_valid_data_row r.
Proof.
  destruct r as [|c r]; [reflexivity|].
  unfold is_valid_data_row. cbv zeta.
  rewrite non_empty_cells_snoc_empty, joined_snoc_empty by discriminate.
  set (j := joined (c :: r)).
  rewrite (existsb_ext_in (fun f => PyStr.startswith (j +:+ " ") f)
             (fun f => PyStr.startswith j f) footnote_starts).
  2: { intros f Hf. apply eq_true_iff_eq.
       rewrite !startswith_spec. apply is_prefix_snoc_space.
       revert f Hf. apply forallb_forall. vm_compute. reflexivity. }
  rewrite (existsb_ext_in (fun k => PyStr.contains k (j +:+ " "))
             (fun k => PyStr.contains k j) banned_fragments).
  2: { intros k Hk. apply eq_true_iff_eq.
       rewrite !contains_spec. apply is_substring_snoc_space.
       revert k Hk. apply forallb_forall. vm_compute. reflexivity. }
  rewrite (existsb_ext_in (fun k => PyStr.contains k (j +:+ " "))
             (fun k => PyStr.contains k j) allow_keywords).
  2: { intros k Hk. apply eq_true_iff_eq.
       rewrite !contains_spec. apply is_substring_snoc_space.
       revert k Hk. apply forallb_forall. vm_compute. reflexivity. }
  reflexivity.
Qed.

Lemma is_valid_data_row_app_empties (r : row) (m : nat) :
  is_valid_data_row (r ++ replicate m "") = is_valid_data_row r.
Proof.
  induction m as [|m IH]; [rewrite app_nil_r; reflexivity|].
  rewrite replicate_S_end, app_assoc, is_valid_data_row_snoc_empty.
  exact IH.
Qed.

Lemma is_valid_data_row_pad (max_cols : nat) (r : row) :
  is_valid_data_row (pad max_cols r) = is_valid_data_row r.
Proof. rewrite pad_replicate. apply is_valid_data_row_app_empties. Qed.

Lemma filtered_map_pad (hdrs : list string) (raw_rows : list row) :
  filtered hdrs raw_rows
  = map (pad (length hdrs))
      (filter (fun r => is_valid_data_row r = true) raw_rows).
Proof.
  unfold filtered, normalized.
  induction raw_rows as [|r rs IH]; [reflexivity|].
  cbn [map]. rewrite !filter_cons, is_valid_data_row_pad.
  destruct (decide (is_valid_data_row r = true)); [|exact IH].
  cbn [map]. rewrite IH. reflexivity.
Qed.

(** X5.  Padding a row with empty cells never changes its classification,
    so the rows that are written are the valid candidate rows, padded:
    filtering after padding and padding after filtering agree. *)
Theorem filtered_pad_commute (hdrs : list string) (raw_rows : list row) :
  (forall r, is_valid_data_row (pad (length hdrs) r) = is_valid_data_row r)
  /\ filtered hdrs raw_rows
     = map (pad (length hdrs))
         (filter (fun r => is_valid_data_row r = true) raw_rows).
Proof.
  split; [intros r; apply is_valid_data_row_pad | apply filtered_map_pad].
Qed.

(** ** The row filter: white space around cells *)

Section StripFacts.

Import PyStr.

Lemma lower_lstrip s : lower (lstrip s) = lstrip (lower s).
Proof.
  induction s as [|a s IH]; [reflexivity|]. simpl.
  rewrite isspace_lower_char. destruct (isspace a); [exact IH | reflexivity].
Qed.

Lemma lower_rstrip s : lower (rstrip s) = rstrip (lower s).
Proof.
  induction s as [|a s IH]; [reflexivity|]. simpl. rewrite <- IH.
  destruct (rstrip s) as [|b r]; simpl; [|reflexivity].
  rewrite isspace_lower_char. destruct (isspace a); reflexivity.
Qed.

Lemma lower_strip s : lower (strip s) = strip (lower s).
Proof. unfold strip. rewrite lower_rstrip, lower_lstrip. reflexivity. Qed.

Lemma rstrip_idem s : rstrip (rstrip s) = rstrip s.
Proof.
  induction s as [|a s IH]; [reflexivity|]. cbn [rstrip].
  destruct (rstrip s) as [|b r] eqn:E.
  - destruct (isspace a) eqn:Ha; [reflexivity|]. cbn [rstrip]. rewrite Ha.
    reflexivity.
  - cbn [rstrip] in *. rewrite IH. reflexivity.
Qed.

Lemma lstrip_head s :
  match lstrip s with
  | EmptyString => True
  | String a _ => isspace a = false
  end.
Proof.
  induction s as [|a s IH]; [exact I|]. simpl.
  destruct (isspace a) eqn:Ha; [exact IH | exact Ha].
Qed.

Lemma lstrip_rstrip_fixed t :
  match t with EmptyString => True | String a _ => isspace a = false end ->
  lstrip (rstrip t) = rstrip t.
Proof.
  destruct t as [|a t]; [reflexivity|]. intros Ha. cbn [rstrip].
  destruct (rstrip t); [rewrite Ha|]; cbn [lstrip]; rewrite Ha; reflexivity.
Qed.

Lemma strip_idem s : strip (strip s) = strip s.
Proof.
  unfold strip. rewrite lstrip_rstrip_fixed by apply lstrip_head.
  apply rstrip_idem.
Qed.

End StripFacts.

(** X6.  White space around the cells does not matter: a row and the row
    of its stripped cells get the same classification. *)
Theorem is_valid_data_row_strip (r : row) :
  is_valid_data_row (map PyStr.strip r) = is_valid_data_row r.
Proof.
  assert (joined (map PyStr.strip r) = joined r) as Hj.
  { unfold joined. f_equal. rewrite map_map. apply map_ext. intros c.
    rewrite <- (lower_strip (PyStr.strip c)), strip_idem.
    apply lower_strip. }
  assert (non_empty_cells (map PyStr.strip r) = non_empty_cells r) as Hn.
  { clear Hj. unfold non_empty_cells.
    induction r as [|c r IH]; [reflexivity|].
    cbn [map]. rewrite !filter_cons, strip_idem.
    destruct (decide _); simpl; rewrite IH; reflexivity. }
  unfold is_valid_data_row. rewrite Hj, Hn. reflexivity.
Qed.

(** ** The row extractor: nothing lost, nothing invented *)

Lemma texts_in_cons (ks : list Z) (w : word) (ws : list word) :
  texts_in ks (w :: ws)
  = match top w, text w with
    | Some y0, Some t =>
        if decide (round1 y0 ∈ ks) then t :: texts_in ks ws
        else texts_in ks ws
    | _, _ => texts_in ks ws
    end.
Proof.
  unfold texts_in. simpl.
  destruct (top w) as [y0|], (text w) as [t|]; try reflexivity.
  destruct (decide (round1 y0 ∈ ks)); reflexivity.
Qed.

Lemma texts_in_nil (ws : list word) : texts_in [] ws = [].
Proof.
  induction ws as [|w ws IH]; [reflexivity|]. rewrite texts_in_cons, IH.
  destruct (top w), (text w); reflexivity.
Qed.

Lemma texts_in_split (y : Z) (ks : list Z) (ws : list word) :
  y ∉ ks -> texts_in (y :: ks) ws ≡ₚ row_of_key ws y ++ texts_in ks ws.
Proof.
  intros Hy. induction ws as [|w ws IH]; [reflexivity|].
  rewrite !texts_in_cons, row_of_key_cons.
  destruct (top w) as [y0|], (text w) as [t|]; try exact IH.
  destruct (decide (round1 y0 = y)) as [->|Hne].
  - rewrite decide_True by (left; reflexivity).
    rewrite (decide_False (P := y ∈ ks)) by exact Hy.
    simpl. rewrite IH. reflexivity.
  - destruct (decide (round1 y0 ∈ ks)) as [Hin|Hnin].
    + rewrite decide_True by (right; exact Hin).
      rewrite IH. apply Permutation_middle.
    + rewrite decide_False; [exact IH|].
      intros H. apply elem_of_cons in H as [H|H]; contradiction.
Qed.

Lemma concat_rows_texts_in (ks : list Z) (ws : list word) :
  NoDup ks -> mjoin (map (row_of_key ws) ks) ≡ₚ texts_in ks ws.
Proof.
  induction 1 as [|y ks Hy _ IH]; [rewrite texts_in_nil; reflexivity|].
  simpl. rewrite IH. symmetry. apply texts_in_split. exact Hy.
Qed.

Lemma texts_in_all (ks : list Z) (ws : list word) :
  (forall w y, In w ws -> key_of w = Some y -> In y ks) ->
  texts_in ks ws = texts ws.
Proof.
  induction ws as [|w ws IH]; intros H; [reflexivity|].
  rewrite texts_in_cons. unfold texts in *. simpl.
  specialize (IH (fun w' y Hw' => H w' y (or_intror Hw'))).
  pose proof (H w) as Hw. unfold key_of in Hw.
  destruct (top w) as [y0|], (text w) as [t|]; try exact IH.
  rewrite decide_True, IH; [reflexivity|].
  apply list_elem_of_In, Hw; [left|]; reflexivity.
Qed.

(** X7.  The candidate rows of a page, taken together, hold the texts of
    the words that have both attributes, each text as many times as it
    occurs among the words: grouping loses no text and invents none. *)
Theorem extract_text_rows_permutation (p : page) :
  exists rows, extract_text_rows p = Ok rows
               /\ mjoin rows ≡ₚ texts (extract_words p).
Proof.
  destruct (extract_text_rows_spec p) as [ks (Hs & Hin & Hrows)].
  exists (map (row_of_key (extract_words p)) ks). split; [exact Hrows|].
  rewrite concat_rows_texts_in by (apply StronglySorted_lt_NoDup, Hs).
  rewrite texts_in_all; [reflexivity|].
  intros w y Hw Hk. apply Hin. exists w. split; assumption.
Qed.

Lemma length_mjoin_nonempty (rows : list row) :
  Forall (fun r => r <> []) rows -> (length rows <= length (mjoin rows))%nat.
Proof.
  induction 1 as [|r rows Hr _ IH]; [reflexivity|]. simpl.
  rewrite length_app. destruct r; [congruence|]. simpl. lia.
Qed.

(** X8.  No candidate row is empty, and a page has at most as many
    candidate rows as it has words with both attributes. *)
Theorem extract_text_rows_nonempty (p : page) :
  exists rows, extract_text_rows p = Ok rows
               /\ Forall (fun r => r <> []) rows
               /\ (length rows <= length (texts (extract_words p)))%nat.
Proof.
  destruct (extract_text_rows_spec p) as [ks (Hs & Hin & Hrows)].
  exists (map (row_of_key (extract_words p)) ks).
  assert (Forall (fun r => r <> []) (map (row_of_key (extract_words p)) ks))
    as Hne.
  { apply List.Forall_map, List.Forall_forall. intros y Hy.
    apply row_of_key_nonempty, Hin, Hy. }
  repeat split; [exact Hrows | exact Hne |].
  etransitivity; [apply length_mjoin_nonempty, Hne|].
  apply Nat.eq_le_incl, Permutation_length.
  rewrite concat_rows_texts_in by (apply StronglySorted_lt_NoDup, Hs).
  rewrite texts_in_all; [reflexivity|].
  intros w y Hw Hk. apply Hin. exists w. split; assumption.
Qed.

(** ** Rounding of offsets *)

Lemma round1_bounds (x : Q) :
  (inject_Z (round1 x) - (1 # 2) <= x * inject_Z 10
   <= inject_Z (round1 x) + (1 # 2))%Q.
Proof.
  unfold round1. cbv zeta.
  pose proof (Qfloor_le (x * inject_Z 10)) as Hlo.
  pose proof (Qlt_floor (x * inject_Z 10)) as Hhi.
  rewrite inject_Z_plus in Hhi.
  generalize dependent (Qfloor (x * inject_Z 10)). intros n Hlo Hhi.
  generalize dependent (x * inject_Z 10)%Q. intros t Hlo Hhi.
  change (inject_Z 1) with 1%Q in Hhi.
  destruct (t - inject_Z n ?= 1 # 2)%Q eqn:E.
  - apply Qeq_alt in E. destruct (Z.even n).
    + lra.
    + rewrite inject_Z_plus. change (inject_Z 1) with 1%Q. lra.
  - apply Qlt_alt in E. lra.
  - apply Qgt_alt in E. rewrite inject_Z_plus.
    change (inject_Z 1) with 1%Q. lra.
Qed.

(** X9.  [round1] gives a nearest tenth: ten times the offset lies within
    one half of the number of tenths that is returned. *)
Theorem round1_nearest (x : Q) :
  (Qabs (x * inject_Z 10 - inject_Z (round1 x)) <= 1 # 2)%Q.
Proof.
  pose proof (round1_bounds x) as [H1 H2].
  apply Qabs_Qle_condition. split; lra.
Qed.

Lemma round1_comp (x y : Q) : (x == y)%Q -> round1 x = round1 y.
Proof.
  intros H. unfold round1. cbv zeta.
  assert (Qfloor (x * inject_Z 10) = Qfloor (y * inject_Z 10)) as Hf
    by (apply Qfloor_comp; rewrite H; reflexivity).
  rewrite Hf.
  assert ((x * inject_Z 10 - inject_Z (Qfloor (y * inject_Z 10)) ?= 1 # 2)%Q
          = (y * inject_Z 10 - inject_Z (Qfloor (y * inject_Z 10)) ?= 1 # 2)%Q)
    as Hc by (apply Qcompare_comp; [rewrite H|]; reflexivity).
  rewrite Hc. reflexivity.
Qed.

Lemma round1_mono (x y : Q) : (x <= y)%Q -> round1 x <= round1 y.
Proof.
  intros Hxy. destruct (Z_le_gt_dec (round1 x) (round1 y)) as [H|H];
    [exact H|].
  pose proof (round1_bounds x) as [Hx _].
  pose proof (round1_bounds y) as [_ Hy].
  assert (inject_Z (round1 y) + 1 <= inject_Z (round1 x))%Q as Hz.
  { change 1%Q with (inject_Z 1). rewrite <- inject_Z_plus.
    rewrite <- Zle_Qle. lia. }
  change (inject_Z 10) with 10%Q in *.
  assert (x == y)%Q as Heq by lra.
  rewrite (round1_comp _ _ Heq) in H. lia.
Qed.

(** X10.  Rounding keeps the order of the offsets: a larger rounded offset
    comes from a strictly larger offset. *)
Theorem round1_lt_offsets (x y : Q) : round1 x < round1 y -> (x < y)%Q.
Proof.
  intros H. apply Qnot_le_lt. intros Hle.
  apply round1_mono in Hle. lia.
Qed.

Lemma round1_lt_offsets_example : ((1201 # 10) < (3001 # 20))%Q.
Proof. apply round1_lt_offsets. vm_compute. reflexivity. Defined.

(** X11.  Two offsets that round to the same tenth differ by at most one
    tenth: a row never joins words that are further apart. *)
Theorem round1_same_row_close (a b : Q) :
  round1 a = round1 b -> (Qabs (a - b) <= 1 # 10)%Q.
Proof.
  intros H. pose proof (round1_bounds a) as [Ha1 Ha2].
  pose proof (round1_bounds b) as [Hb1 Hb2]. rewrite H in *.
  change (inject_Z 10) with 10%Q in *.
  apply Qabs_Qle_condition. split; lra.
Qed.

Lemma round1_same_row_close_example :
  (Qabs ((12004 # 100) - (1200 # 10)) <= 1 # 10)%Q.
Proof. apply round1_same_row_close. vm_compute. reflexivity. Defined.

(** X12.  The rows follow the page from top to bottom: a word of an
    earlier row has a strictly smaller offset than a word of a later row. *)
Theorem rows_follow_offsets (p : page) :
  exists ks,
    extract_text_rows p = Ok (map (row_of_key (extract_words p)) ks)
    /\ forall (i j : nat) (ta tb : Q),
         ks !! i = Some (round1 ta) -> ks !! j = Some (round1 tb) ->
         (i < j)%nat -> (ta < tb)%Q.
Proof.
  destruct (extract_text_rows_spec p) as [ks (Hs & _ & Hrows)].
  exists ks. split; [exact Hrows|].
  intros i j ta tb Hi Hj Hij. apply Qnot_le_lt. intros Hle.
  apply round1_mono in Hle.
  pose proof (StronglySorted_lookup_lt ks i j _ _ Hs Hi Hj Hij). lia.
Qed.

(** ** The page loop: what a run writes *)

Lemma getitem_raise {A} (l : list A) (i : Z) (e : exn) :
  getitem l i = Raise e -> e = IndexError.
Proof.
  unfold getitem. destruct (_ <? 0); [intros [= <-]; reflexivity|].
  destruct (l !! _); [discriminate | intros [= <-]; reflexivity].
Qed.

Lemma getitem_nat_ok {A} (l : list A) (idx : nat) (x : A) :
  getitem l (Z.of_nat idx) = Ok x -> l !! idx = Some x.
Proof.
  unfold getitem. destruct (Z.ltb_spec (Z.of_nat idx) 0); [lia|].
  destruct (Z.ltb_spec (Z.of_nat idx) 0); [lia|].
  rewrite Nat2Z.id. destruct (l !! idx); [intros [= ->]; reflexivity|].
  discriminate.
Qed.

Lemma pd_DataFrame_cases (data : list row) (cols : list string) :
  (exists df, pd_DataFrame data cols = Ok df /\ columns df = cols)
  \/ (exists msg, pd_DataFrame data cols = Raise (ValueError msg)).
Proof.
  unfold pd_DataFrame. destruct data as [|r data].
  - left. eexists. split; reflexivity.
  - destruct (_ =? _)%nat.
    + left. eexists. split; reflexivity.
    + right. eexists. reflexivity.
Qed.

(** One turn of the loop either raises [IndexError] or [ValueError]
    before any effect, or writes one file under the name of the page, with
    the header set of its position as columns, and announces it. *)
Lemma process_page_cases ts (pdf_pages : list page)
    (all_headers : list (list string)) (idx : nat) (page_num : Z) :
  (exists e, process_page ts pdf_pages all_headers idx page_num
             = ([], Raise e)
             /\ (e = IndexError \/ exists msg, e = ValueError msg))
  \/ (exists df,
        process_page ts pdf_pages all_headers idx page_num
        = ([ ToCsv (output_name ts page_num) df;
             Print ("Saved: " +:+ output_name ts page_num) ], Ok tt)
        /\ all_headers !! idx = Some (columns df)).
Proof.
  unfold process_page.
  destruct (getitem all_headers (Z.of_nat idx)) as [hdrs|e] eqn:Hh.
  2: { left. exists e. split; [reflexivity|]. left.
       exact (getitem_raise _ _ _ Hh). }
  cbn [lift bindM app].
  destruct (getitem pdf_pages page_num) as [pg|e] eqn:Hp.
  2: { left. exists e. split; [reflexivity|]. left.
       exact (getitem_raise _ _ _ Hp). }
  cbn [lift bindM app].
  destruct (extract_text_rows_spec pg) as [ks (_ & _ & ->)].
  cbn [lift bindM app].
  destruct (pd_DataFrame_cases
              (filtered hdrs (map (row_of_key (extract_words pg)) ks)) hdrs)
    as [[df [-> Hc]] | [msg ->]].
  - right. exists df. split; [reflexivity|].
    rewrite Hc. exact (getitem_nat_ok _ _ _ Hh).
  - left. eexists. split; [reflexivity|]. right. eexists. reflexivity.
Qed.

(** The name and the columns of each file of a trace. *)
Lemma page_loop_written ts (pdf_pages : list page)
    (all_headers : list (list string)) (page_numbers : list Z) (idx : nat) :
  exists k : nat,
    (k <= length page_numbers)%nat
    /\ map (fun nd => (fst nd, columns (snd nd)))
         (written (fst (page_loop ts pdf_pages all_headers idx page_numbers)))
       = zip (map (output_name ts) (take k page_numbers))
           (take k (drop idx all_headers))
    /\ (k <= length (drop idx all_headers))%nat
    /\ (snd (page_loop ts pdf_pages all_headers idx page_numbers) = Ok tt
        <-> k = length page_numbers).
Proof.
  revert idx. induction page_numbers as [|pn rest IH]; intros idx.
  - exists 0%nat. simpl. repeat split; lia.
  - cbn [page_loop].
    destruct (process_page_cases ts pdf_pages all_headers idx pn)
      as [[e [-> _]] | [df [-> Hh]]].
    + exists 0%nat. simpl. repeat split; try lia; discriminate.
    + destruct (IH (S idx)) as [k (Hk & Hw & Hd & Hok)].
      exists (S k). cbn [bindM].
      destruct (page_loop ts pdf_pages all_headers (S idx) rest) as [t res].
      cbn [fst snd] in *.
      rewrite (drop_S _ _ _ Hh). cbn [length take map zip zip_with].
      repeat split; try lia.
      * change (written ([ToCsv (output_name ts pn) df;
                          Print ("Saved: " +:+ output_name ts pn)] ++ t))
          with ((output_name ts pn, df) :: written t).
        cbn [map fst snd]. rewrite Hw. reflexivity.
      * intros H. apply Hok in H. lia.
      * intros H. apply Hok. lia.
Qed.

Lemma output_name_page_file ts (p : Z) : output_name ts (p - 1) = page_file ts p.
Proof. unfold output_name, page_file. rewrite Z.sub_add. reflexivity. Qed.

Lemma written_app (t1 t2 : list event) :
  written (t1 ++ t2) = written t1 ++ written t2.
Proof. unfold written. apply omap_app. Qed.

Lemma written_bracket (path : string) (t : list event) :
  written (Open path :: t ++ [Close path]) = written t.
Proof.
  change (Open path :: t ++ [Close path])
    with ([Open path] ++ t ++ [Close path]).
  rewrite !written_app.
  change (written [Open path]) with (@nil (string * DataFrame)).
  change (written [Close path]) with (@nil (string * DataFrame)).
  rewrite app_nil_r. reflexivity.
Qed.

Lemma main_run (a : args) (w : world) :
  length (headers a) = length (pages a) ->
  forall pdf_pages, pdfplumber_open w (pdf a) = Ok pdf_pages ->
  main a w
  = (Open (pdf a)
       :: fst (page_loop (now w) pdf_pages (headers a) 0
                 (map (fun p => p - 1) (pages a)))
       ++ [Close (pdf a)],
     snd (page_loop (now w) pdf_pages (headers a) 0
            (map (fun p => p - 1) (pages a)))).
Proof.
  intros Hlen pdf_pages Hopen. unfold main. rewrite length_map.
  rewrite (proj2 (Nat.eqb_eq _ _) Hlen). cbn [negb].
  unfold with_open. rewrite Hopen.
  destruct (page_loop _ _ _ _ _) as [t res]. reflexivity.
Qed.

Lemma main_cases (a : args) (w : world) :
  (length (headers a) <> length (pages a)
   /\ main a w = ([], Raise (ValueError mismatch_message)))
  \/ (exists e, pdfplumber_open w (pdf a) = Raise e
                /\ main a w = ([Open (pdf a)], Raise e))
  \/ (exists pdf_pages,
        length (headers a) = length (pages a)
        /\ main a w
           = (Open (pdf a)
                :: fst (page_loop (now w) pdf_pages (headers a) 0
                          (map (fun p => p - 1) (pages a)))
                ++ [Close (pdf a)],
              snd (page_loop (now w) pdf_pages (headers a) 0
                     (map (fun p => p - 1) (pages a))))).
Proof.
  destruct (decide (length (headers a) = length (pages a))) as [Hlen|Hlen].
  - destruct (pdfplumber_open w (pdf a)) as [pdf_pages|e] eqn:Hopen.
    + right. right. exists pdf_pages. split; [exact Hlen|].
      apply main_run; assumption.
    + right. left. exists e. split; [reflexivity|].
      unfold main. rewrite length_map.
      rewrite (proj2 (Nat.eqb_eq _ _) Hlen). cbn [negb].
      unfold with_open. rewrite Hopen. reflexivity.
  - left. split; [exact Hlen|]. unfold main. rewrite length_map.
    destruct (Nat.eqb_spec (length (headers a)) (length (pages a)));
      [contradiction | reflexivity].
Qed.

(** X13.  The files of a run are those of the first [k] requested pages,
    in the order of the request, each under the name of its page number
    and with the header set of its position as columns; after a run that
    ends without exception [k] is the number of requested pages, so there
    is one file for each. *)
Theorem main_written (a : args) (w : world) :
  exists k : nat,
    (k <= length (pages a))%nat
    /\ map (fun nd => (fst nd, columns (snd nd))) (written (fst (main a w)))
       = zip (map (page_file (now w)) (take k (pages a)))
           (take k (headers a))
    /\ (snd (main a w) = Ok tt -> k = length (pages a)).
Proof.
  destruct (main_cases a w)
    as [[_ ->] | [[e [_ ->]] | [pdf_pages [Hlen ->]]]].
  - exists 0%nat. simpl. repeat split; [lia | discriminate].
  - exists 0%nat. simpl. repeat split; [lia | discriminate].
  - destruct (page_loop_written (now w) pdf_pages (headers a)
                (map (fun p => p - 1) (pages a)) 0)
      as [k (Hk & Hw & _ & Hok)].
    rewrite length_map in Hk, Hok. exists k. cbn [fst snd].
    split; [exact Hk|]. split; [|apply Hok].
    rewrite written_bracket, Hw, drop_0, firstn_map, map_map. f_equal.
    apply map_ext. intros p. apply output_name_page_file.
Qed.

Lemma page_loop_announced ts (pdf_pages : list page)
    (all_headers : list (list string)) (page_numbers : list Z) (idx : nat) :
  fst (page_loop ts pdf_pages all_headers idx page_numbers)
  = flat_map announced
      (written (fst (page_loop ts pdf_pages all_headers idx page_numbers))).
Proof.
  revert idx. induction page_numbers as [|pn rest IH]; intros idx;
    [reflexivity|].
  cbn [page_loop].
  destruct (process_page_cases ts pdf_pages all_headers idx pn)
    as [[e [-> _]] | [df [-> _]]]; [reflexivity|].
  cbn [bindM]. specialize (IH (S idx)).
  destruct (page_loop ts pdf_pages all_headers (S idx) rest) as [t res].
  cbn [fst] in *. rewrite written_app.
  change (written [ToCsv (output_name ts pn) df;
                   Print ("Saved: " +:+ output_name ts pn)])
    with [(output_name ts pn, df)].
  cbn [app flat_map]. rewrite <- IH. reflexivity.
Qed.

(** X14.  The trace of a run is empty (the header sets do not match the
    pages), or the opening alone (the document cannot be opened), or the
    opening, then each written file followed at once by its message, then
    the closing of the document, which is thus never left open. *)
Theorem main_trace_shape (a : args) (w : world) :
  let t := fst (main a w) in
  t = []
  \/ t = [Open (pdf a)]
  \/ t = Open (pdf a) :: flat_map announced (written t) ++ [Close (pdf a)].
Proof.
  cbv zeta.
  destruct (main_cases a w)
    as [[_ ->] | [[e [_ ->]] | [pdf_pages [Hlen ->]]]].
  - left. reflexivity.
  - right. left. reflexivity.
  - right. right. cbn [fst].
    rewrite written_bracket, <- page_loop_announced. reflexivity.
Qed.

(** ** File names *)

Lemma slength_app (s t : string) :
  String.length (s +:+ t) = (String.length s + String.length t)%nat.
Proof.
  induction s as [|a s IH]; [reflexivity|]. rewrite sapp_cons. simpl.
  rewrite IH. reflexivity.
Qed.

Lemma sapp_inj_l (s t u : string) : s +:+ t = s +:+ u -> t = u.
Proof.
  induction s as [|a s IH]; [rewrite !sapp_nil_l; auto|].
  rewrite !sapp_cons. intros [= H]. exact (IH H).
Qed.

Lemma sapp_inj_r (s t u : string) : s +:+ u = t +:+ u -> s = t.
Proof.
  revert t. induction s as [|a s IH]; intros [|b t] H.
  - reflexivity.
  - apply (f_equal String.length) in H. rewrite sapp_nil_l, sapp_cons in H.
    simpl in H. rewrite slength_app in H. lia.
  - apply (f_equal String.length) in H. rewrite sapp_nil_l, sapp_cons in H.
    simpl in H. rewrite slength_app in H. lia.
  - rewrite !sapp_cons in H. injection H as -> H. rewrite (IH t H).
    reflexivity.
Qed.

(** X16.  Within a run, two page numbers that differ give file names that
    differ: the file of a page is overwritten only by the same page
    requested again. *)
Theorem page_file_inj ts (p q : Z) : page_file ts p = page_file ts q -> p = q.
Proof.
  unfold page_file. intros H. apply sapp_inj_l, sapp_inj_r in H.
  exact (pretty_Z_inj _ _ H).
Qed.

Lemma page_file_inj_example : 7 = 7.
Proof. apply (page_file_inj "2026-01-01_00-00" 7 7). reflexivity. Defined.

(** ** Page numbers from one on *)

Lemma getitem_nonnegative {A} (l : list A) (i : Z) :
  0 <= i ->
  getitem l i = match l !! Z.to_nat i with
                | Some x => Ok x
                | None => Raise IndexError
                end.
Proof.
  intros Hi. unfold getitem.
  destruct (Z.ltb_spec i 0); [lia|]. destruct (Z.ltb_spec i 0); [lia|].
  reflexivity.
Qed.

(** X17.  A page number [p >= 1] selects the page at position [p] of the
    document when the document has that many pages; otherwise the access
    raises [IndexError], nothing is written for the page and the pages
    requested after it are not processed. *)
Theorem positive_page_number (pdf_pages : list page) (p : Z) :
  0 < p ->
  if bool_decide (p <= Z.of_nat (length pdf_pages)) then
    exists pg, pdf_pages !! Z.to_nat (p - 1) = Some pg
               /\ getitem pdf_pages (p - 1) = Ok pg
  else
    getitem pdf_pages (p - 1) = Raise IndexError
    /\ forall ts hs idx rest,
         page_loop ts pdf_pages hs idx ((p - 1) :: rest)
         = ([], Raise IndexError).
Proof.
  intros Hp. rewrite (getitem_nonnegative pdf_pages (p - 1)) by lia.
  case_bool_decide as Hn.
  - destruct (pdf_pages !! Z.to_nat (p - 1)) as [pg|] eqn:Hl.
    + exists pg. split; reflexivity.
    + apply lookup_ge_None in Hl. lia.
  - assert (pdf_pages !! Z.to_nat (p - 1) = None) as Hl
      by (apply lookup_ge_None; lia).
    rewrite Hl. split; [reflexivity|]. intros ts hs idx rest.
    cbn [page_loop]. rewrite process_page_no_page; [reflexivity|].
    rewrite getitem_nonnegative by lia. rewrite Hl. reflexivity.
Qed.

Lemma positive_page_number_example :
  getitem [sample_page] (2 - 1) = Raise IndexError
  /\ forall ts hs idx rest,
       page_loop ts [sample_page] hs idx ((2 - 1) :: rest)
       = ([], Raise IndexError).
Proof. apply (positive_page_number [sample_page] 2). lia. Defined.

(** ** The file of a page *)

Lemma max_len_all (n : nat) (data : list row) :
  data <> [] -> (forall r, In r data -> length r = n) -> max_len data = n.
Proof.
  induction data as [|r data IH]; [congruence|]. intros _ H.
  cbn [max_len foldr]. rewrite (H r) by (left; reflexivity).
  destruct data as [|r' data]; [simpl; lia|].
  fold (max_len (r' :: data)).
  rewrite IH; [lia | discriminate |].
  intros x Hx. apply H. right. exact Hx.
Qed.

(** X18.  When no valid candidate row of a page has more cells than there
    are headers, the turn of the page writes one file: the headers, and
    the valid candidate rows in their order, each padded with empty cells
    to the number of headers. *)
Theorem process_page_writes ts (pdf_pages : list page)
    (all_headers : list (list string)) (idx : nat) (page_num : Z)
    (hdrs : list string) (pg : page) (raw_rows : list row) :
  getitem all_headers (Z.of_nat idx) = Ok hdrs ->
  getitem pdf_pages page_num = Ok pg ->
  extract_text_rows pg = Ok raw_rows ->
  (forall r, In r raw_rows -> is_valid_data_row r = true ->
             (length r <= length hdrs)%nat) ->
  process_page ts pdf_pages all_headers idx page_num
  = ([ ToCsv (output_name ts page_num)
         (Frame hdrs
            (map (fun r => map Some (pad (length hdrs) r))
               (filter (fun r => is_valid_data_row r = true) raw_rows)));
       Print ("Saved: " +:+ output_name ts page_num) ], Ok tt).
Proof.
  intros Hh Hp Hrows Hfit. unfold process_page.
  rewrite Hh. cbn [lift bindM app]. rewrite Hp. cbn [lift bindM app].
  rewrite Hrows. cbn [lift bindM app]. rewrite filtered_map_pad.
  set (valid := filter (fun r => is_valid_data_row r = true) raw_rows).
  assert (forall r, In r (map (pad (length hdrs)) valid)
                    -> length r = length hdrs) as Hlen.
  { intros r Hr. apply in_map_iff in Hr as [r0 [<- Hr0]].
    unfold valid in Hr0. apply list_elem_of_In in Hr0.
    apply list_elem_of_filter in Hr0 as [Hv Hr0].
    apply list_elem_of_In in Hr0. specialize (Hfit r0 Hr0 Hv).
    rewrite length_pad. lia. }
  assert (pd_DataFrame (map (pad (length hdrs)) valid) hdrs
          = Ok (Frame hdrs
                  (map (fun r => map Some (pad (length hdrs) r)) valid)))
    as ->; [|reflexivity].
  unfold pd_DataFrame.
  destruct (map (pad (length hdrs)) valid) as [|r0 data] eqn:E.
  - destruct valid; [reflexivity | discriminate E].
  - rewrite <- E in *.
    rewrite (max_len_all (length hdrs)); [|rewrite E; discriminate | exact Hlen].
    rewrite Nat.eqb_refl. f_equal. f_equal.
    rewrite map_fill_none by (intros r Hr; rewrite (Hlen r Hr); lia).
    rewrite map_map. reflexivity.
Qed.

Lemma process_page_writes_example :
  process_page "2026-01-01_00-00" [sample_page] [["Category"; "Value"]] 0 0
  = ([ ToCsv (output_name "2026-01-01_00-00" 0)
         (Frame ["Category"; "Value"]
            (map (fun r => map Some (pad (length ["Category"; "Value"]) r))
               (filter (fun r => is_valid_data_row r = true)
                  [["CARES report"]; ["Witnessed"; "42%"]; ["Yes"];
                   ["Utstein"]])));
       Print ("Saved: " +:+ output_name "2026-01-01_00-00" 0) ], Ok tt).
Proof.
  apply (process_page_writes "2026-01-01_00-00" [sample_page]
           [["Category"; "Value"]] 0 0 ["Category"; "Value"] sample_page).
  - reflexivity.
  - reflexivity.
  - vm_compute. reflexivity.
  - intros r Hr _. simpl in Hr.
    destruct Hr as [<-|[<-|[<-|[<-|[]]]]]; simpl; lia.
Defined.

(** X19.  When a valid candidate row of a page has more cells than there
    are headers, building the frame raises [ValueError]: the turn of the
    page writes nothing and ends the run. *)
Theorem process_page_wide_row ts (pdf_pages : list page)
    (all_headers : list (list string)) (idx : nat) (page_num : Z)
    (hdrs : list string) (pg : page) (raw_rows : list row) (r : row) :
  getitem all_headers (Z.of_nat idx) = Ok hdrs ->
  getitem pdf_pages page_num = Ok pg ->
  extract_text_rows pg = Ok raw_rows ->
  In r raw_rows -> is_valid_data_row r = true ->
  (length hdrs < length r)%nat ->
  exists msg,
    process_page ts pdf_pages all_headers idx page_num
    = ([], Raise (ValueError msg)).
Proof.
  intros Hh Hp Hrows Hr Hv Hwide. unfold process_page.
  rewrite Hh. cbn [lift bindM app]. rewrite Hp. cbn [lift bindM app].
  rewrite Hrows. cbn [lift bindM app].
  assert (In (pad (length hdrs) r) (filtered hdrs raw_rows)) as Hin.
  { rewrite filtered_map_pad. apply in_map. apply list_elem_of_In.
    apply list_elem_of_filter. split; [exact Hv|].
    apply list_elem_of_In. exact Hr. }
  pose proof (length_le_max_len _ _ Hin) as Hmax.
  rewrite length_pad in Hmax. unfold pd_DataFrame.
  destruct (filtered hdrs raw_rows) as [|r0 data]; [destruct Hin|].
  destruct (Nat.eqb_spec (max_len (r0 :: data)) (length hdrs)); [lia|].
  eexists. reflexivity.
Qed.

Lemma process_page_wide_row_example :
  exists msg,
    process_page "2026-01-01_00-00" [sample_page] [["Category"]] 0 0
    = ([], Raise (ValueError msg)).
Proof.
  apply (process_page_wide_row "2026-01-01_00-00" [sample_page]
           [["Category"]] 0 0 ["Category"] sample_page
           [["CARES report"]; ["Witnessed"; "42%"]; ["Yes"]; ["Utstein"]]
           ["Witnessed"; "42%"]).
  - reflexivity.
  - reflexivity.
  - vm_compute. reflexivity.
  - simpl. auto.
  - vm_compute. reflexivity.
  - simpl. lia.
Defined.

(** ** The row extractor: reading order *)

Lemma row_of_key_sublist (ws : list word) (y : Z) :
  sublist (row_of_key ws y) (texts ws).
Proof.
  induction ws as [|w ws IH]; [constructor|].
  rewrite row_of_key_cons. unfold texts in *. simpl.
  destruct (top w) as [y0|], (text w) as [t|]; try exact IH.
  destruct (decide (round1 y0 = y)).
  - apply sublist_skip. exact IH.
  - apply sublist_cons. exact IH.
Qed.

(** X20.  Inside a candidate row the texts keep the order in which the
    page gave its words: each row is a subsequence of the texts of the
    words with both attributes (the cells are not sorted again). *)
Theorem extract_text_rows_reading_order (p : page) :
  exists rows, extract_text_rows p = Ok rows
               /\ Forall (fun r => sublist r (texts (extract_words p))) rows.
Proof.
  destruct (extract_text_rows_spec p) as [ks (_ & _ & Hrows)].
  exists (map (row_of_key (extract_words p)) ks). split; [exact Hrows|].
  apply List.Forall_map, List.Forall_forall. intros y _.
  apply row_of_key_sublist.
Qed.
